(** * Yellowstone wolf population models: the integration core

    A shallow embedding of the numerical core of the notebook
    [Yellowstone_Wolf_Population_Models.ipynb]: the right-hand sides
    [logistic_growth], [logistic_piecewise], [logistic_human] and the
    fixed-step Euler loop [integrate_piecewise].  The smooth models are
    integrated by [scipy.integrate.odeint], which is a library call and has
    no counterpart here.

    Numbers are IEEE binary64 values (the kernel's primitive floats), tagged
    with the Python type that carries them, because the two types disagree on
    division by zero: a Python [float] (or [int]) raises [ZeroDivisionError],
    a NumPy [float64] returns an infinity or a NaN.  A Python [int] is
    represented by the [float] of the same value, as the notebook's 50, 500,
    200, 15 and 10 are; an [int] that is not a binary64 value has no
    representation here.  Two things Python does with [int] operands are
    therefore outside the embedding: an [int * int] product is exact in
    Python, so it keeps the sign [+] on a zero (where the float product may
    be [-0.0]) and raises [OverflowError] when it is too large to become a
    float (where the float product is an infinity).  The statements below
    that speak of returned trajectories are conditional on the return for
    that reason.

    Exceptions are values of an error monad; lists and arrays are [list]s,
    indexed the way Python indexes them.

    Contents: the embedding; indexing and the loop unrolled along the grid;
    facts on binary64 arithmetic; then the properties of the loop (steps,
    shape of the trajectory, choice of the capacity, malformed grids,
    determinism), the comparison with the reference trajectory of the
    specification, degenerate capacities, and the relations between the
    right-hand sides. *)

From Stdlib Require Import List ZArith Bool Lia.
From Stdlib Require Import Floats.
Import ListNotations.

(** ** Exceptions *)

Inductive exn : Type :=
| IndexError
| ZeroDivisionError.

Inductive result (A : Type) : Type :=
| Ok (a : A)
| Raise (e : exn).

Arguments Ok {A} a.
Arguments Raise {A} e.

Definition bind {A B : Type} (m : result A) (k : A -> result B) : result B :=
  match m with
  | Ok a => k a
  | Raise e => Raise e
  end.

Declare Scope py_scope.
Delimit Scope py_scope with py.
Notation "x <- m ;; k" := (bind m (fun x => k))
  (at level 61, m at next level, right associativity) : py_scope.
Open Scope py_scope.

(** ** Numbers *)

Inductive pynum : Type :=
| PyFloat (x : float)      (* a Python float, or an int of that value *)
| NpFloat64 (x : float).   (* a numpy.float64 scalar or array element *)

Definition value (a : pynum) : float :=
  match a with
  | PyFloat x => x
  | NpFloat64 x => x
  end.

Definition is_np (a : pynum) : bool :=
  match a with
  | PyFloat _ => false
  | NpFloat64 _ => true
  end.

Definition wrap (np : bool) (x : float) : pynum :=
  if np then NpFloat64 x else PyFloat x.

(** A binary operator returns a NumPy scalar as soon as one operand is one. *)
Definition binop (f : float -> float -> float) (a b : pynum) : pynum :=
  wrap (is_np a || is_np b) (f (value a) (value b)).

Definition py_add : pynum -> pynum -> pynum := binop PrimFloat.add.
Definition py_sub : pynum -> pynum -> pynum := binop PrimFloat.sub.
Definition py_mul : pynum -> pynum -> pynum := binop PrimFloat.mul.

(** [a / b]: between two Python numbers a zero divisor raises; as soon as
    NumPy is involved the IEEE quotient is returned (with a warning, which is
    not an exception). *)
Definition py_truediv (a b : pynum) : result pynum :=
  match a, b with
  | PyFloat x, PyFloat y =>
      if PrimFloat.eqb y 0%float then Raise ZeroDivisionError
      else Ok (PyFloat (PrimFloat.div x y))
  | _, _ => Ok (NpFloat64 (PrimFloat.div (value a) (value b)))
  end.

Definition py_lt (a b : pynum) : bool := PrimFloat.ltb (value a) (value b).

(** The literal [1]. *)
Definition py_one : pynum := PyFloat 1%float.

(** ** Sequences *)

(** [l[i]] for a list or an array, negative indices counting from the end. *)
Definition getitem {A : Type} (l : list A) (i : Z) : result A :=
  let n := Z.of_nat (length l) in
  let j := if (i <? 0)%Z then (i + n)%Z else i in
  if (j <? 0)%Z then Raise IndexError
  else match nth_error l (Z.to_nat j) with
       | Some x => Ok x
       | None => Raise IndexError
       end.

(** [range(a, b)] *)
Definition range (a b : nat) : list Z :=
  map Z.of_nat (seq a (b - a)).

(** [for i in idx: P = body(i, P)], stopping at the first exception. *)
Fixpoint for_loop {S : Type} (idx : list Z) (body : Z -> S -> result S)
         (s : S) : result S :=
  match idx with
  | [] => Ok s
  | i :: rest => s' <- body i s ;; for_loop rest body s'
  end.

(** [np.array(P)]: an array of float64. *)
Definition np_array (P : list pynum) : list float := map value P.

(** ** The right-hand sides *)

(** [def logistic_growth(P, t, r, K): return r * P * (1 - P / K)] *)
Definition logistic_growth (P t r K : pynum) : result pynum :=
  q <- py_truediv P K ;;
  Ok (py_mul (py_mul r P) (py_sub py_one q)).

(** [def logistic_piecewise(P, t, r, K_high, K_low, t_change)] *)
Definition logistic_piecewise (P t r K_high K_low t_change : pynum)
  : result pynum :=
  let K := if py_lt t t_change then K_high else K_low in
  q <- py_truediv P K ;;
  Ok (py_mul (py_mul r P) (py_sub py_one q)).

(** [def logistic_human(P, t, r, K, h): return r * P * (1 - P / K) - h] *)
Definition logistic_human (P t r K h : pynum) : result pynum :=
  q <- py_truediv P K ;;
  Ok (py_sub (py_mul (py_mul r P) (py_sub py_one q)) h).

(** ** The fixed-step Euler loop *)

(** The body of the loop of [integrate_piecewise]:
<<
        K = K_high if t[i] < t_change else K_low
        dP = r * P[-1] * (1 - P[-1] / K)
        P.append(P[-1] + dP * dt)
>> *)
Definition loop_body (t : list pynum) (r K_high K_low t_change dt : pynum)
           (i : Z) (P : list pynum) : result (list pynum) :=
  ti <- getitem t i ;;
  let K := if py_lt ti t_change then K_high else K_low in
  p1 <- getitem P (-1) ;;
  p2 <- getitem P (-1) ;;
  q <- py_truediv p2 K ;;
  let dP := py_mul (py_mul r p1) (py_sub py_one q) in
  p3 <- getitem P (-1) ;;
  Ok (P ++ [py_add p3 (py_mul dP dt)]).

(** [def integrate_piecewise(P0, t, r, K_high, K_low, t_change)] *)
Definition integrate_piecewise (P0 : pynum) (t : list pynum)
           (r K_high K_low t_change : pynum) : result (list float) :=
  t1 <- getitem t 1 ;;
  t0 <- getitem t 0 ;;
  let dt := py_sub t1 t0 in
  let P := [P0] in
  P' <- for_loop (range 1 (length t))
                 (loop_body t r K_high K_low t_change dt) P ;;
  Ok (np_array P').

(** ** Auxiliary definitions used by the statements *)

(** The states the loop appends when it starts from a last state [p] and
    still has the grid times [grid] to visit. *)
Fixpoint euler_states (r K_high K_low t_change dt p : pynum)
         (grid : list pynum) : result (list pynum) :=
  match grid with
  | [] => Ok []
  | ti :: rest =>
      let K := if py_lt ti t_change then K_high else K_low in
      q <- py_truediv p K ;;
      let p' := py_add p (py_mul (py_mul (py_mul r p) (py_sub py_one q)) dt) in
      tl <- euler_states r K_high K_low t_change dt p' rest ;;
      Ok (p' :: tl)
  end.

(** A divisor on which a Python dividend raises. *)
Definition python_zero (K : pynum) : bool :=
  match K with
  | PyFloat y => PrimFloat.eqb y 0%float
  | NpFloat64 _ => false
  end.

(** [t[0] < t[1] < ... ] *)
Fixpoint strictly_increasing (t : list pynum) : bool :=
  match t with
  | a :: (b :: _) as rest => py_lt a b && strictly_increasing rest
  | _ => true
  end.

(** The step the loop takes on float64 values:
    [P[-1] + r * P[-1] * (1 - P[-1] / K) * dt]. *)
Definition euler_step (r K dt p : float) : float :=
  (p + r * p * (1 - p / K) * dt)%float.

(** The capacity the loop picks for a step whose grid time is [ti]. *)
Definition capacity_at (K_high K_low t_change ti : pynum) : pynum :=
  if py_lt ti t_change then K_high else K_low.

(** [t[1] - t[0]] as a float64. *)
Definition first_spacing (t : list pynum) : float :=
  match t with
  | t0 :: t1 :: _ => (value t1 - value t0)%float
  | _ => nan
  end.

(** *** The reference trajectory of the specification

    The specification's test oracle for the piecewise model: Euler steps
    [state_i = state_{i-1} + derivative * dt], the capacity being [K_high]
    while [t[i] < t_change] and, once switched, [K_low] for the rest of the
    grid.  The step size is a parameter [step_size t[i-1] t[i]]; the
    specification's is [dt = t[i] - t[i-1]]. *)

Definition logistic_rhs (r K P : float) : float :=
  (r * P * (1 - P / K))%float.

(** After the switch: [K_low] on every remaining step. *)
Fixpoint reference_after_switch (step_size : float -> float -> float)
         (r K_low state t_prev : float) (grid : list float) : list float :=
  match grid with
  | [] => []
  | ti :: rest =>
      let dt := step_size t_prev ti in
      let state' := (state + logistic_rhs r K_low state * dt)%float in
      state' :: reference_after_switch step_size r K_low state' ti rest
  end.

(** Before the switch: [K_high] while [t[i] < t_change]. *)
Fixpoint reference_before_switch (step_size : float -> float -> float)
         (r K_high K_low t_change state t_prev : float)
         (grid : list float) : list float :=
  match grid with
  | [] => []
  | ti :: rest =>
      if (ti <? t_change)%float then
        let dt := step_size t_prev ti in
        let state' := (state + logistic_rhs r K_high state * dt)%float in
        state' :: reference_before_switch step_size r K_high K_low t_change
                                          state' ti rest
      else reference_after_switch step_size r K_low state t_prev grid
  end.

Definition reference_with (step_size : float -> float -> float)
           (P0 : float) (t : list float)
           (r K_high K_low t_change : float) : list float :=
  match t with
  | [] => []
  | t0 :: rest =>
      P0 :: reference_before_switch step_size r K_high K_low t_change
                                    P0 t0 rest
  end.

(** [dt = t[i] - t[i-1]] *)
Definition per_pair_dt (t_prev ti : float) : float := (ti - t_prev)%float.

(** The reference as the specification words it. *)
Definition reference_trajectory : float -> list float ->
                                  float -> float -> float -> float ->
                                  list float :=
  reference_with per_pair_dt.

(** The same reference taking every step with one step size [dt]. *)
Definition reference_fixed_step (dt : float) : float -> list float ->
                                               float -> float -> float ->
                                               float -> list float :=
  reference_with (fun _ _ => dt).

(** Along the grid, every step size [step_size t[i-1] t[i]] is [dt]. *)
Fixpoint step_sizes_are (step_size : float -> float -> float) (dt : float)
         (t : list float) : Prop :=
  match t with
  | a :: (b :: _) as rest =>
      step_size a b = dt /\ step_sizes_are step_size dt rest
  | _ => True
  end.

(** Every consecutive difference of the grid is the float64
    [t[1] - t[0]]. *)
Definition uniform_spacing (t : list pynum) : Prop :=
  step_sizes_are per_pair_dt (first_spacing t) (map value t).

(** No division of a run can raise when the initial state is a NumPy
    float64, or neither capacity is a Python zero, or the grid is a NumPy
    array and the capacity of the first step is not a Python zero. *)
Definition no_python_zero_division (P0 : pynum) (t : list pynum)
           (K_high K_low t_change : pynum) : Prop :=
  is_np P0 = true \/
  (python_zero K_high = false /\ python_zero K_low = false) \/
  (forallb is_np t = true /\
   python_zero (capacity_at K_high K_low t_change (nth 1 t py_one)) = false).

(** *** The notebook's parameters *)

Module Notebook.
Definition r : pynum := PyFloat 0x1.3333333333333p-2.   (* r = 0.3 *)
Definition K : pynum := PyFloat 500.                     (* K = 500 *)
Definition P0 : pynum := PyFloat 50.                     (* P0 = 50 *)
Definition K_high : pynum := PyFloat 500.                (* K_high = 500 *)
Definition K_low : pynum := PyFloat 200.                 (* K_low = 200 *)
Definition t_change : pynum := PyFloat 15.               (* t_change = 15 *)
Definition h : pynum := PyFloat 10.                      (* h = 10 *)
End Notebook.

(** [np.array(xs)] of float64 *)
Definition np_grid (xs : list float) : list pynum := map NpFloat64 xs.

(** ** The predator-prey right-hand side *)

(** [W, E = y] raises [ValueError] unless [y] has exactly two items. *)
Inductive unpacking (A : Type) : Type :=
| Returned (x : A)
| ValueError.

Arguments Returned {A} x.
Arguments ValueError {A}.

(** [-a] *)
Definition py_neg (a : pynum) : pynum :=
  wrap (is_np a) (PrimFloat.opp (value a)).

(** [def lotka_volterra(y, t, a, b, c, d)]:
<<
    W, E = y
    dWdt = a * W - b * W * E
    dEdt = -c * E + d * W * E
    return [dWdt, dEdt]
>> *)
Definition lotka_volterra (y : list pynum) (t a b c d : pynum)
  : unpacking (list pynum) :=
  match y with
  | [W; E] =>
      let dWdt := py_sub (py_mul a W) (py_mul (py_mul b W) E) in
      let dEdt := py_add (py_mul (py_neg c) E) (py_mul (py_mul d W) E) in
      Returned [dWdt; dEdt]
  | _ => ValueError
  end.

(** ** Sequences: indexing *)

Lemma getitem_of_nat (A : Type) (l : list A) (i : nat) :
  getitem l (Z.of_nat i) =
  match nth_error l i with
  | Some x => Ok x
  | None => Raise IndexError
  end.
Proof.
  unfold getitem.
  assert (Hpos : (Z.of_nat i <? 0)%Z = false) by (apply Z.ltb_ge; lia).
  now rewrite !Hpos, Nat2Z.id.
Qed.

Lemma getitem_last (A : Type) (l : list A) (x : A) :
  getitem (l ++ [x]) (-1) = Ok x.
Proof.
  unfold getitem. rewrite length_app. cbn [length].
  change (-1 <? 0)%Z with true. cbv iota.
  destruct (Z.ltb_spec (-1 + Z.of_nat (length l + 1)) 0) as [Hneg | _]; [lia |].
  replace (Z.to_nat (-1 + Z.of_nat (length l + 1))) with (length l) by lia.
  now rewrite nth_error_app2, Nat.sub_diag by lia.
Qed.

Lemma getitem_short (A : Type) (l : list A) (i : nat) :
  (length l <= i)%nat -> getitem l (Z.of_nat i) = Raise IndexError.
Proof.
  intros Hlen. rewrite getitem_of_nat.
  apply nth_error_None in Hlen. now rewrite Hlen.
Qed.

(** ** The loop, unrolled along the grid *)

Lemma skipn_nth_error (A : Type) (l : list A) (k : nat) (x : A) :
  nth_error l k = Some x -> skipn k l = x :: skipn (S k) l.
Proof.
  revert l. induction k as [| k IH]; intros [| y l] Hnth; try discriminate.
  - now injection Hnth as ->.
  - cbn in Hnth. now apply IH.
Qed.

Lemma bind_assoc (A B C : Type) (m : result A) (f : A -> result B)
      (g : B -> result C) :
  bind (bind m f) g = bind m (fun a => bind (f a) g).
Proof. now destruct m. Qed.

Section Loop.
Variables (t : list pynum) (r K_high K_low t_change dt : pynum).

Lemma loop_body_last (i : nat) (ti p : pynum) (P : list pynum) :
  nth_error t i = Some ti ->
  loop_body t r K_high K_low t_change dt (Z.of_nat i) (P ++ [p]) =
  (q <- py_truediv p (if py_lt ti t_change then K_high else K_low) ;;
   Ok ((P ++ [p]) ++
       [py_add p (py_mul (py_mul (py_mul r p) (py_sub py_one q)) dt)])).
Proof.
  intros Hti. unfold loop_body.
  rewrite getitem_of_nat, Hti. cbn [bind].
  now rewrite !getitem_last.
Qed.

Lemma for_loop_euler_states (n : nat) :
  forall (k : nat) (P : list pynum) (p : pynum),
    (k + n <= length t)%nat ->
    for_loop (map Z.of_nat (seq k n))
             (loop_body t r K_high K_low t_change dt) (P ++ [p]) =
    (tl <- euler_states r K_high K_low t_change dt p
                        (firstn n (skipn k t)) ;;
     Ok (P ++ p :: tl)).
Proof.
  induction n as [| n IH]; intros k P p Hlen.
  - reflexivity.
  - destruct (nth_error t k) as [tk |] eqn:Htk.
    2:{ apply nth_error_None in Htk. lia. }
    rewrite (skipn_nth_error _ t k tk Htk).
    cbn [seq map for_loop firstn euler_states].
    rewrite (loop_body_last k tk p P Htk), !bind_assoc.
    destruct (py_truediv p _) as [q | e]; [| reflexivity].
    cbn [bind]. rewrite IH by lia. rewrite bind_assoc.
    destruct (euler_states _ _ _ _ _ _ _) as [tl | e]; [| reflexivity].
    cbn [bind]. now rewrite <- app_assoc.
Qed.
End Loop.

Lemma integrate_piecewise_unfold (P0 : pynum) (t : list pynum)
      (r K_high K_low t_change : pynum) :
  integrate_piecewise P0 t r K_high K_low t_change =
  match t with
  | t0 :: t1 :: rest =>
      tl <- euler_states r K_high K_low t_change (py_sub t1 t0) P0
                         (t1 :: rest) ;;
      Ok (value P0 :: map value tl)
  | _ => Raise IndexError
  end.
Proof.
  destruct t as [| t0 [| t1 rest]]; try reflexivity.
  unfold integrate_piecewise, range.
  change (getitem (t0 :: t1 :: rest) 1) with (Ok (A := pynum) t1).
  change (getitem (t0 :: t1 :: rest) 0) with (Ok (A := pynum) t0).
  cbn [bind]. change [P0] with ([] ++ [P0]).
  rewrite (for_loop_euler_states (t0 :: t1 :: rest) r K_high K_low t_change
             (py_sub t1 t0) (length (t0 :: t1 :: rest) - 1) 1 [] P0)
    by (cbn [length]; lia).
  replace (length (t0 :: t1 :: rest) - 1)%nat with (length (t1 :: rest))
    by (cbn [length]; lia).
  change (skipn 1 (t0 :: t1 :: rest)) with (t1 :: rest).
  rewrite firstn_all, bind_assoc.
  now destruct (euler_states _ _ _ _ _ _ _).
Qed.

(** ** Values computed by the tagged operations *)

Lemma value_wrap (b : bool) (x : float) : value (wrap b x) = x.
Proof. now destruct b. Qed.

Lemma is_np_wrap (b : bool) (x : float) : is_np (wrap b x) = b.
Proof. now destruct b. Qed.

Lemma value_binop (f : float -> float -> float) (a b : pynum) :
  value (binop f a b) = f (value a) (value b).
Proof. apply value_wrap. Qed.

Lemma is_np_binop (f : float -> float -> float) (a b : pynum) :
  is_np (binop f a b) = is_np a || is_np b.
Proof. apply is_np_wrap. Qed.

(** A division that returns gives the IEEE quotient of the two values. *)
Lemma py_truediv_value (a b q : pynum) :
  py_truediv a b = Ok q ->
  value q = PrimFloat.div (value a) (value b) /\
  is_np q = is_np a || is_np b.
Proof.
  destruct a as [x | x], b as [y | y]; cbn;
    try (intros [= <-]; now split).
  destruct (PrimFloat.eqb y 0); [discriminate |].
  intros [= <-]. now split.
Qed.

(** It returns unless both operands are Python numbers and the divisor is
    zero. *)
Lemma py_truediv_returns (a b : pynum) :
  is_np a = true \/ python_zero b = false ->
  exists q, py_truediv a b = Ok q.
Proof.
  destruct a as [x | x], b as [y | y]; cbn; intros [Hnp | Hz];
    try discriminate; eauto.
  rewrite Hz. eauto.
Qed.

Lemma update_value (r K dt p q : pynum) :
  py_truediv p K = Ok q ->
  value (py_add p (py_mul (py_mul (py_mul r p) (py_sub py_one q)) dt)) =
  euler_step (value r) (value K) (value dt) (value p).
Proof.
  intros Hq. apply py_truediv_value in Hq as [Hq _].
  unfold py_add, py_mul, py_sub, euler_step.
  now rewrite !value_binop, Hq.
Qed.

(** ** The trajectory, step by step *)

Section Steps.
Variables (r K_high K_low t_change dt : pynum).

Lemma euler_states_length (grid : list pynum) :
  forall (p : pynum) (tl : list pynum),
    euler_states r K_high K_low t_change dt p grid = Ok tl ->
    length tl = length grid.
Proof.
  induction grid as [| ti rest IH]; intros p tl; cbn [euler_states].
  - now intros [= <-].
  - destruct (py_truediv p _) as [q | e]; [| discriminate]. cbn [bind].
    destruct (euler_states _ _ _ _ _ _ rest) as [tl' | e] eqn:Hrest;
      [| discriminate].
    intros [= <-]. cbn [length]. f_equal. eapply IH, Hrest.
Qed.

Lemma euler_states_nth (grid : list pynum) :
  forall (p : pynum) (tl : list pynum) (j : nat) (tj : pynum),
    euler_states r K_high K_low t_change dt p grid = Ok tl ->
    nth_error grid j = Some tj ->
    exists a b,
      nth_error (p :: tl) j = Some a /\
      nth_error tl j = Some b /\
      value b = euler_step (value r)
                  (value (capacity_at K_high K_low t_change tj))
                  (value dt) (value a).
Proof.
  induction grid as [| ti rest IH]; intros p tl j tj; cbn [euler_states].
  - now destruct j.
  - destruct (py_truediv p _) as [q | e] eqn:Hq; [| discriminate].
    cbn [bind].
    destruct (euler_states _ _ _ _ _ _ rest) as [tl' | e] eqn:Hrest;
      [| discriminate].
    intros [= <-] Hj. destruct j as [| j].
    + injection Hj as <-. eexists _, _. repeat split.
      now apply update_value.
    + cbn [nth_error] in Hj |- *. eapply IH; eassumption.
Qed.
End Steps.

Lemma integrate_piecewise_step (P0 : pynum) (t : list pynum)
      (r K_high K_low t_change : pynum) (traj : list float)
      (i : nat) (ti : pynum) :
  integrate_piecewise P0 t r K_high K_low t_change = Ok traj ->
  (1 <= i)%nat ->
  nth_error t i = Some ti ->
  exists p,
    nth_error traj (i - 1) = Some p /\
    nth_error traj i =
    Some (euler_step (value r) (value (capacity_at K_high K_low t_change ti))
                     (first_spacing t) p).
Proof.
  rewrite integrate_piecewise_unfold.
  destruct t as [| t0 [| t1 rest]]; try discriminate.
  destruct (euler_states _ _ _ _ _ _ _) as [tl |] eqn:Htl; [| discriminate].
  intros [= <-] Hi Hti.
  destruct i as [| j]; [lia |].
  replace (S j - 1)%nat with j by lia.
  cbn [nth_error] in Hti.
  destruct (euler_states_nth _ _ _ _ _ _ _ _ _ _ Htl Hti)
    as (a & b & Ha & Hb & Hv).
  exists (value a). split.
  - change (value P0 :: map value tl) with (map value (P0 :: tl)).
    now rewrite nth_error_map, Ha.
  - cbn [nth_error]. rewrite nth_error_map, Hb. cbn [option_map first_spacing].
    rewrite Hv. unfold py_sub. now rewrite value_binop.
Qed.

Lemma integrate_piecewise_shape (P0 : pynum) (t : list pynum)
      (r K_high K_low t_change : pynum) (traj : list float) :
  integrate_piecewise P0 t r K_high K_low t_change = Ok traj ->
  length traj = length t /\ nth_error traj 0 = Some (value P0).
Proof.
  rewrite integrate_piecewise_unfold.
  destruct t as [| t0 [| t1 rest]]; try discriminate.
  destruct (euler_states _ _ _ _ _ _ _) as [tl |] eqn:Htl; [| discriminate].
  intros [= <-]. split; [| reflexivity].
  apply euler_states_length in Htl.
  cbn [length] in *. now rewrite length_map, Htl.
Qed.

(** ** Facts on binary64 comparisons and arithmetic *)

Lemma float_eqb_ltb (x y : float) :
  PrimFloat.eqb x y = true -> PrimFloat.ltb x y = false.
Proof.
  rewrite eqb_spec, ltb_spec. unfold SFeqb, SFltb.
  destruct (SFcompare (Prim2SF x) (Prim2SF y)) as [[| |] |]; congruence.
Qed.

Lemma float_ltb_eqb (x y : float) :
  PrimFloat.ltb x y = true -> PrimFloat.eqb x y = false.
Proof.
  rewrite eqb_spec, ltb_spec. unfold SFeqb, SFltb.
  destruct (SFcompare (Prim2SF x) (Prim2SF y)) as [[| |] |]; congruence.
Qed.

Lemma float_sub_zero (x : float) : PrimFloat.sub x 0 = x.
Proof.
  apply Prim2SF_inj. rewrite sub_spec.
  change (Prim2SF 0) with (S754_zero false).
  now destruct (Prim2SF x) as [[|] | [|] | | s m e].
Qed.

(** [<] on binary64 is transitive: on finite values of one sign it is the
    lexicographic order on exponent and mantissa. *)
Lemma lex_compare_trans (e1 e2 e3 : Z) (m1 m2 m3 : positive) (c : comparison) :
  c <> Eq ->
  match (e1 ?= e2)%Z with Eq => (m1 ?= m2)%positive | o => o end = c ->
  match (e2 ?= e3)%Z with Eq => (m2 ?= m3)%positive | o => o end = c ->
  match (e1 ?= e3)%Z with Eq => (m1 ?= m3)%positive | o => o end = c.
Proof.
  intros Hc.
  destruct (Z.compare_spec e1 e2), (Z.compare_spec e2 e3);
    destruct (Pos.compare_spec m1 m2), (Pos.compare_spec m2 m3);
    intros <-; try discriminate; try congruence; intros _;
    destruct (Z.compare_spec e1 e3); try lia;
    destruct (Pos.compare_spec m1 m3); try lia; reflexivity.
Qed.

Lemma SFltb_trans (a b c : spec_float) :
  SFltb a b = true -> SFltb b c = true -> SFltb a c = true.
Proof.
  unfold SFltb.
  destruct a as [sa | sa | | sa ma ea]; try discriminate;
    destruct b as [sb | sb | | sb mb eb];
    try discriminate; try (now destruct sa); try (now destruct sa, sb);
    destruct c as [sc | sc | | sc mc ec];
    try discriminate; try (now destruct sb); try (now destruct sb, sc);
    try (now destruct sa, sb, sc).
  destruct sa, sb, sc; try discriminate; try reflexivity;
    cbn [SFcompare]; change (Pos.compare_cont Eq) with Pos.compare.
  - pose proof (@lex_compare_trans ea eb ec ma mb mc Gt
                  ltac:(discriminate)) as H.
    destruct (ea ?= eb)%Z, (eb ?= ec)%Z, (ea ?= ec)%Z,
      (ma ?= mb)%positive, (mb ?= mc)%positive, (ma ?= mc)%positive;
      cbn in *; try discriminate; try reflexivity;
      intros _ _; now specialize (H eq_refl eq_refl).
  - pose proof (@lex_compare_trans ea eb ec ma mb mc Lt
                  ltac:(discriminate)) as H.
    destruct (ea ?= eb)%Z, (eb ?= ec)%Z, (ea ?= ec)%Z,
      (ma ?= mb)%positive, (mb ?= mc)%positive, (ma ?= mc)%positive;
      cbn in *; try discriminate; try reflexivity;
      intros _ _; now specialize (H eq_refl eq_refl).
Qed.

Lemma float_ltb_trans (x y z : float) :
  PrimFloat.ltb x y = true -> PrimFloat.ltb y z = true ->
  PrimFloat.ltb x z = true.
Proof. rewrite !ltb_spec. apply SFltb_trans. Qed.

(** The classification predicates, read on the specification of floats. *)
Lemma is_zero_spec (x : float) :
  is_zero x = match Prim2SF x with S754_zero _ => true | _ => false end.
Proof.
  unfold is_zero. rewrite eqb_spec.
  change (Prim2SF zero) with (S754_zero false).
  now destruct (Prim2SF x) as [[|] | [|] | | [|] m e].
Qed.

Lemma is_nan_spec (x : float) :
  is_nan x = match Prim2SF x with S754_nan => true | _ => false end.
Proof.
  unfold is_nan. rewrite eqb_spec. unfold SFeqb.
  destruct (Prim2SF x) as [[|] | [|] | | [|] m e]; cbn; try reflexivity;
    now rewrite Z.compare_refl, Pos.compare_cont_refl.
Qed.

Lemma is_finite_spec (x : float) :
  is_finite x =
  match Prim2SF x with
  | S754_zero _ | S754_finite _ _ _ => true
  | _ => false
  end.
Proof.
  unfold is_finite, is_infinity. rewrite is_nan_spec, eqb_spec, abs_spec.
  change (Prim2SF infinity) with (S754_infinity false).
  now destruct (Prim2SF x) as [[|] | [|] | | [|] m e].
Qed.

(** A finite non-zero float divided by itself is exactly [1]. *)
Lemma SF64div_self (s : bool) (m : positive) (e : Z) :
  SF64div (S754_finite s m e) (S754_finite s m e) = Prim2SF 1.
Proof.
  unfold SF64div, SFdiv, SFdiv_core_binary.
  cbn [Zdigits2]. rewrite !Z.sub_diag.
  change (Z.min (fexp prec emax 0) 0) with (-53)%Z.
  change (0 - -53)%Z with 53%Z. cbv iota.
  rewrite Z.shiftl_mul_pow2 by lia.
  assert (Hq : Z.div_eucl (Z.pos m * 2 ^ 53) (Z.pos m) = (2 ^ 53, 0)%Z).
  { pose proof (Z_div_mult (2 ^ 53) (Z.pos m) ltac:(lia)) as Hd.
    pose proof (Z_mod_mult (2 ^ 53) (Z.pos m)) as Hm.
    unfold Z.div, Z.modulo in Hd, Hm.
    rewrite (Z.mul_comm (Z.pos m)).
    destruct (Z.div_eucl (2 ^ 53 * Z.pos m) (Z.pos m)) as [q r].
    cbn [fst snd] in Hd, Hm. now subst. }
  rewrite Hq.
  assert (Hloc : new_location (Z.pos m) 0 = loc_Exact).
  { unfold new_location. now destruct (Z.even (Z.pos m)). }
  rewrite Hloc, xorb_nilpotent.
  vm_compute. reflexivity.
Qed.

Lemma float_div_self (x : float) :
  is_finite x = true -> is_zero x = false -> PrimFloat.div x x = 1%float.
Proof.
  rewrite is_finite_spec, is_zero_spec. intros Hfin Hnz.
  apply Prim2SF_inj. rewrite div_spec.
  destruct (Prim2SF x) as [s | s | | s m e]; try discriminate.
  apply SF64div_self.
Qed.

(** A finite float times a zero is a zero. *)
Lemma float_mul_zero_r (x z : float) :
  is_finite x = true -> is_zero z = true -> is_zero (x * z) = true.
Proof.
  rewrite is_finite_spec, !is_zero_spec, mul_spec.
  now destruct (Prim2SF x) as [s | s | | s m e],
               (Prim2SF z) as [s' | s' | | s' m' e'].
Qed.

Lemma float_mul_zero_l (z x : float) :
  is_zero z = true -> is_finite x = true -> is_zero (z * x) = true.
Proof.
  rewrite is_finite_spec, !is_zero_spec, mul_spec.
  now destruct (Prim2SF x) as [s | s | | s m e],
               (Prim2SF z) as [s' | s' | | s' m' e'].
Qed.

(** A zero divided by a non-zero number is a zero; [1] minus a zero is
    [1]. *)
Lemma float_zero_div (z k : float) :
  is_zero z = true -> is_nan k = false -> is_zero k = false ->
  is_zero (z / k) = true.
Proof.
  rewrite !is_zero_spec, is_nan_spec, div_spec.
  now destruct (Prim2SF z) as [s | s | | s m e],
               (Prim2SF k) as [s' | s' | | s' m' e'].
Qed.

Lemma float_one_sub_zero (z : float) :
  is_zero z = true -> (1 - z)%float = 1%float.
Proof.
  rewrite is_zero_spec. intros Hz.
  apply Prim2SF_inj. rewrite sub_spec.
  destruct (Prim2SF z) as [s | s | | s m e]; try discriminate.
  reflexivity.
Qed.

(** ** When the run returns *)

Section Returns.
Variables (r K_high K_low t_change dt : pynum).

Lemma euler_states_returns (grid : list pynum) :
  forall p : pynum,
    is_np p = true \/
    (python_zero K_high = false /\ python_zero K_low = false) ->
    exists tl, euler_states r K_high K_low t_change dt p grid = Ok tl.
Proof.
  induction grid as [| ti rest IH]; intros p Hsafe; cbn [euler_states].
  - eauto.
  - destruct (py_truediv_returns p
                (if py_lt ti t_change then K_high else K_low)) as [q Hq].
    { destruct Hsafe as [Hnp | [Hh Hl]]; [now left | right].
      now destruct (py_lt ti t_change). }
    rewrite Hq. cbn [bind].
    match goal with
    | |- context [euler_states _ _ _ _ _ ?p' rest] =>
        destruct (IH p') as [tl Htl]
    end.
    { destruct Hsafe as [Hnp | Hk]; [left | now right].
      unfold py_add. now rewrite is_np_binop, Hnp. }
    rewrite Htl. cbn [bind]. eauto.
Qed.
End Returns.

Lemma integrate_piecewise_returns (P0 : pynum) (t : list pynum)
      (r K_high K_low t_change : pynum) :
  (2 <= length t)%nat ->
  no_python_zero_division P0 t K_high K_low t_change ->
  exists traj, integrate_piecewise P0 t r K_high K_low t_change = Ok traj.
Proof.
  intros Hlen Hsafe. rewrite integrate_piecewise_unfold.
  destruct t as [| t0 [| t1 rest]]; cbn [length] in Hlen; try lia.
  assert (Hgoal : exists tl,
             euler_states r K_high K_low t_change (py_sub t1 t0) P0
                          (t1 :: rest) = Ok tl).
  { destruct Hsafe as [Hnp | [Hk | [Hgrid H1]]].
    - apply euler_states_returns. now left.
    - apply euler_states_returns. now right.
    - cbn [nth] in H1. cbn [forallb] in Hgrid.
      apply andb_prop in Hgrid as [Ht0 _].
      cbn [euler_states].
      destruct (py_truediv_returns P0
                  (if py_lt t1 t_change then K_high else K_low)) as [q Hq].
      { now right. }
      rewrite Hq. cbn [bind].
      match goal with
      | |- context [euler_states _ _ _ _ _ ?p' rest] =>
          destruct (euler_states_returns r K_high K_low t_change
                      (py_sub t1 t0) rest p') as [tl Htl]
      end.
      { left. unfold py_add, py_mul, py_sub.
        rewrite !is_np_binop, Ht0. now rewrite !orb_true_r. }
      rewrite Htl. cbn [bind]. eauto. }
  destruct Hgoal as [tl Htl]. rewrite Htl. cbn [bind]. eauto.
Qed.

(** ** The claims on the Euler loop *)

(** C1 (as the code has it): whenever [integrate_piecewise] returns, every
    step [i >= 1] advances the state by
    [state_i = state_{i-1} + derivative * dt], the derivative being the
    logistic right-hand side at the previous state with the capacity picked
    for that step, and [dt] being the spacing [t[1] - t[0]] of the first
    pair of grid points, the same for every step. *)
Theorem euler_step_uses_first_spacing (P0 : pynum) (t : list pynum)
        (r K_high K_low t_change : pynum) (traj : list float)
        (i : nat) (t0 t1 ti : pynum) :
  integrate_piecewise P0 t r K_high K_low t_change = Ok traj ->
  nth_error t 0 = Some t0 ->
  nth_error t 1 = Some t1 ->
  (1 <= i)%nat ->
  nth_error t i = Some ti ->
  exists state_prev : float,
    nth_error traj (i - 1) = Some state_prev /\
    let K := value (if py_lt ti t_change then K_high else K_low) in
    let derivative := (value r * state_prev * (1 - state_prev / K))%float in
    let dt := (value t1 - value t0)%float in
    nth_error traj i = Some (state_prev + derivative * dt)%float.
Proof.
  intros Hrun Ht0 Ht1 Hi Hti.
  destruct (integrate_piecewise_step _ _ _ _ _ _ _ _ _ Hrun Hi Hti)
    as (p & Hprev & Hcur).
  exists p. split; [exact Hprev |]. cbv zeta.
  destruct t as [| a [| b rest]]; try discriminate.
  cbn in Ht0, Ht1. injection Ht0 as <-. injection Ht1 as <-.
  exact Hcur.
Qed.

Lemma euler_step_uses_first_spacing_witness :
  exists traj : list float,
    integrate_piecewise Notebook.P0 (np_grid [0; 1; 3]%float) Notebook.r
                        Notebook.K_high Notebook.K_low Notebook.t_change
    = Ok traj /\
    exists state_prev : float,
      nth_error traj 1 = Some state_prev /\
      nth_error traj 2 =
      Some (state_prev
            + value Notebook.r * state_prev * (1 - state_prev / 500)
              * (1 - 0))%float.
Proof.
  eexists. split; [vm_compute; reflexivity |].
  apply (euler_step_uses_first_spacing
           Notebook.P0 (np_grid [0; 1; 3]%float) Notebook.r
           Notebook.K_high Notebook.K_low Notebook.t_change _ 2
           (NpFloat64 0) (NpFloat64 1) (NpFloat64 3)).
  - vm_compute; reflexivity.
  - reflexivity.
  - reflexivity.
  - lia.
  - reflexivity.
Defined.

(** C1 as stated fails on a strictly increasing grid that is not evenly
    spaced: on [t = [0, 1, 3]] the step from [t[1]] to [t[2]] is taken with
    [dt = t[1] - t[0] = 1] and gives 80.13065, where [dt = t[2] - t[1] = 2]
    would give 96.7613. *)
Lemma per_pair_spacing_fails_on_uneven_grid :
  let t := np_grid [0; 1; 3]%float in
  let state_1 := 63.5%float in
  let state_2 := 0x1.4085c91d14e3cp+6%float in   (* 80.130650000000003 *)
  let per_pair := 0x1.830b923a29c78p+6%float in  (* 96.761300000000006 *)
  strictly_increasing t = true /\
  integrate_piecewise Notebook.P0 t Notebook.r
                      Notebook.K_high Notebook.K_low Notebook.t_change
  = Ok [50%float; state_1; state_2] /\
  (state_1 + value Notebook.r * state_1 * (1 - state_1 / 500) * (3 - 1))%float
  = per_pair /\
  (state_2 <? per_pair)%float = true /\
  nth_error [50%float; state_1; state_2] 2 <> Some per_pair.
Proof.
  cbv zeta. repeat split; try (vm_compute; reflexivity).
  intros Heq.
  apply (f_equal (fun o => match o with
                           | Some x => PrimFloat.ltb x 90
                           | None => false
                           end)) in Heq.
  vm_compute in Heq. discriminate.
Qed.

(** C2: on a grid of at least two points, every trajectory that
    [integrate_piecewise] returns has exactly one entry per grid point, and
    its first entry is the initial state [P0] (as a float64). *)
Theorem trajectory_length_and_head (P0 : pynum) (t : list pynum)
        (r K_high K_low t_change : pynum) (traj : list float) :
  (2 <= length t)%nat ->
  integrate_piecewise P0 t r K_high K_low t_change = Ok traj ->
  length traj = length t /\ nth_error traj 0 = Some (value P0).
Proof.
  intros _. apply integrate_piecewise_shape.
Qed.

Lemma trajectory_length_and_head_witness :
  let traj := [50; 63.5; 0x1.4085c91d14e3cp+6]%float in
  integrate_piecewise Notebook.P0 (np_grid [0; 1; 3]%float) Notebook.r
                      Notebook.K_high Notebook.K_low Notebook.t_change
  = Ok traj /\
  length traj = 3%nat /\ nth_error traj 0 = Some 50%float.
Proof.
  cbv zeta. split; [vm_compute; reflexivity |].
  apply (trajectory_length_and_head
           Notebook.P0 (np_grid [0; 1; 3]%float) Notebook.r
           Notebook.K_high Notebook.K_low Notebook.t_change
           [50; 63.5; 0x1.4085c91d14e3cp+6]%float).
  - cbn. lia.
  - vm_compute; reflexivity.
Defined.

(** [logistic_piecewise] is [logistic_growth] at the capacity of its time
    argument. *)
Lemma logistic_piecewise_is_growth (P t r K_high K_low t_change : pynum) :
  logistic_piecewise P t r K_high K_low t_change =
  logistic_growth P t r (if py_lt t t_change then K_high else K_low).
Proof. reflexivity. Qed.

(** The derivative of iteration [i] is [logistic_piecewise] evaluated at the
    last state and at the grid time [t[i]] of that iteration. *)
Lemma loop_body_is_logistic_piecewise (t : list pynum)
      (r K_high K_low t_change dt : pynum) (i : nat) (ti p : pynum)
      (P : list pynum) :
  nth_error t i = Some ti ->
  loop_body t r K_high K_low t_change dt (Z.of_nat i) (P ++ [p]) =
  (dP <- logistic_piecewise p ti r K_high K_low t_change ;;
   Ok ((P ++ [p]) ++ [py_add p (py_mul dP dt)])).
Proof.
  intros Hti.
  rewrite (loop_body_last t r K_high K_low t_change dt i ti p P Hti).
  unfold logistic_piecewise. rewrite bind_assoc.
  now destruct (py_truediv p _).
Qed.

(** C3: a returned trajectory starts with [P0] and has one entry per grid
    point, and at every step [i] the capacity in the derivative is [K_high]
    when [t[i] < t_change] and [K_low] otherwise; the test reads the grid
    time [t[i]] the step leads to, whatever [t[i-1]] is, and a step with
    [t[i]] equal to [t_change] uses [K_low]. *)
Theorem capacity_chosen_by_target_time (P0 : pynum) (t : list pynum)
        (r K_high K_low t_change : pynum) (traj : list float) :
  integrate_piecewise P0 t r K_high K_low t_change = Ok traj ->
  length traj = length t /\
  nth_error traj 0 = Some (value P0) /\
  forall (i : nat) (ti : pynum),
    (1 <= i)%nat ->
    nth_error t i = Some ti ->
    exists state_prev : float,
      nth_error traj (i - 1) = Some state_prev /\
      ((value ti <? value t_change)%float = true ->
       nth_error traj i =
       Some (state_prev
             + value r * state_prev * (1 - state_prev / value K_high)
               * first_spacing t)%float)
      /\
      ((value ti <? value t_change)%float = false ->
       nth_error traj i =
       Some (state_prev
             + value r * state_prev * (1 - state_prev / value K_low)
               * first_spacing t)%float)
      /\
      ((value ti =? value t_change)%float = true ->
       nth_error traj i =
       Some (state_prev
             + value r * state_prev * (1 - state_prev / value K_low)
               * first_spacing t)%float).
Proof.
  intros Hrun.
  destruct (integrate_piecewise_shape _ _ _ _ _ _ _ Hrun) as [Hlen Hhead].
  split; [exact Hlen |]. split; [exact Hhead |].
  intros i ti Hi Hti.
  destruct (integrate_piecewise_step _ _ _ _ _ _ _ _ _ Hrun Hi Hti)
    as (p & Hprev & Hcur).
  exists p. split; [exact Hprev |].
  unfold capacity_at, py_lt, euler_step in Hcur.
  repeat split.
  - intros Hlt. now rewrite Hlt in Hcur.
  - intros Hge. now rewrite Hge in Hcur.
  - intros Heq. apply float_eqb_ltb in Heq. now rewrite Heq in Hcur.
Qed.

(** On [t = [0, 1, 2]] with [t_change = 2] the first step ends at
    [t[1] = 1 < t_change] and uses [K_high = 500]; the second step starts at
    [t[1] < t_change] and ends at [t[2] = t_change]: it uses
    [K_low = 200]. *)
Lemma capacity_chosen_by_target_time_witness :
  let t := np_grid [0; 1; 2]%float in
  let state_1 := 63.5%float in
  let state_2 := 0x1.3201a9fbe76c9p+6%float in   (* 76.501625000000004 *)
  integrate_piecewise Notebook.P0 t Notebook.r
                      Notebook.K_high Notebook.K_low (PyFloat 2)
  = Ok [50%float; state_1; state_2] /\
  (50 + value Notebook.r * 50 * (1 - 50 / 500) * (1 - 0))%float = state_1 /\
  (state_1 + value Notebook.r * state_1 * (1 - state_1 / 200) * (1 - 0))%float
  = state_2 /\
  (state_1 + value Notebook.r * state_1 * (1 - state_1 / 500) * (1 - 0))%float
  <> state_2 /\
  length [50%float; state_1; state_2] = length t /\
  nth_error [50%float; state_1; state_2] 0 = Some (value Notebook.P0) /\
  forall (i : nat) (ti : pynum),
    (1 <= i)%nat ->
    nth_error t i = Some ti ->
    exists state_prev : float,
      nth_error [50%float; state_1; state_2] (i - 1) = Some state_prev /\
      ((value ti <? 2)%float = true ->
       nth_error [50%float; state_1; state_2] i =
       Some (state_prev
             + value Notebook.r * state_prev * (1 - state_prev / 500)
               * first_spacing t)%float)
      /\
      ((value ti <? 2)%float = false ->
       nth_error [50%float; state_1; state_2] i =
       Some (state_prev
             + value Notebook.r * state_prev * (1 - state_prev / 200)
               * first_spacing t)%float)
      /\
      ((value ti =? 2)%float = true ->
       nth_error [50%float; state_1; state_2] i =
       Some (state_prev
             + value Notebook.r * state_prev * (1 - state_prev / 200)
               * first_spacing t)%float).
Proof.
  cbv zeta.
  split; [vm_compute; reflexivity |].
  split; [vm_compute; reflexivity |].
  split; [vm_compute; reflexivity |].
  split.
  { intros Heq. apply (f_equal (fun x => PrimFloat.ltb x 80)) in Heq.
    vm_compute in Heq. discriminate. }
  apply (capacity_chosen_by_target_time
           Notebook.P0 (np_grid [0; 1; 2]%float) Notebook.r
           Notebook.K_high Notebook.K_low (PyFloat 2)
           [50; 63.5; 0x1.3201a9fbe76c9p+6]%float).
  vm_compute; reflexivity.
Defined.

(** C4 (as the code has it): a grid with fewer than two points makes
    [integrate_piecewise] raise [IndexError], at [t[1]], before any state is
    computed; no trajectory is returned. *)
Theorem short_grid_raises_IndexError (P0 : pynum) (t : list pynum)
        (r K_high K_low t_change : pynum) :
  (length t < 2)%nat ->
  integrate_piecewise P0 t r K_high K_low t_change = Raise IndexError.
Proof.
  intros Hlen. unfold integrate_piecewise.
  change 1%Z with (Z.of_nat 1).
  now rewrite (getitem_short _ t 1 ltac:(lia)).
Qed.

Lemma short_grid_raises_IndexError_witness :
  integrate_piecewise Notebook.P0 (np_grid [0]%float)
                      Notebook.r Notebook.K_high Notebook.K_low
                      Notebook.t_change
  = Raise IndexError.
Proof.
  apply (short_grid_raises_IndexError Notebook.P0 (np_grid [0]%float)
           Notebook.r Notebook.K_high Notebook.K_low Notebook.t_change).
  cbn. lia.
Defined.

(** Divisions are the only other source of exceptions: with two points or
    more, the only exception a run can raise is [ZeroDivisionError]. *)
Lemma py_truediv_exn (a b : pynum) (e : exn) :
  py_truediv a b = Raise e -> e = ZeroDivisionError.
Proof.
  destruct a as [x | x], b as [y | y]; cbn; try discriminate.
  destruct (PrimFloat.eqb y 0); [now intros [= <-] | discriminate].
Qed.

Lemma euler_states_exn (r K_high K_low t_change dt : pynum)
      (grid : list pynum) :
  forall (p : pynum) (e : exn),
    euler_states r K_high K_low t_change dt p grid = Raise e ->
    e = ZeroDivisionError.
Proof.
  induction grid as [| ti rest IH]; intros p e; cbn [euler_states].
  - discriminate.
  - destruct (py_truediv p _) as [q | e'] eqn:Hq; cbn [bind].
    + destruct (euler_states _ _ _ _ _ _ rest) as [tl | e'] eqn:Hrest;
        cbn [bind]; [discriminate |].
      intros [= <-]. eapply IH, Hrest.
    + intros [= <-]. eapply py_truediv_exn, Hq.
Qed.

Lemma long_grid_no_IndexError (P0 : pynum) (t : list pynum)
      (r K_high K_low t_change : pynum) :
  (2 <= length t)%nat ->
  integrate_piecewise P0 t r K_high K_low t_change <> Raise IndexError.
Proof.
  intros Hlen. rewrite integrate_piecewise_unfold.
  destruct t as [| t0 [| t1 rest]]; cbn [length] in Hlen; try lia.
  destruct (euler_states _ _ _ _ _ _ _) as [tl | e] eqn:Hrun; cbn [bind].
  - discriminate.
  - apply euler_states_exn in Hrun. subst e. discriminate.
Qed.

(** C4 as stated fails on grids that are not strictly increasing: the
    decreasing grid [[1, 0]] and the constant grid [[2, 2, 2]] are
    integrated like any other. *)
Lemma unordered_grid_is_integrated :
  strictly_increasing (np_grid [1; 0]%float) = false /\
  integrate_piecewise Notebook.P0 (np_grid [1; 0]%float)
                      Notebook.r Notebook.K_high Notebook.K_low
                      Notebook.t_change
  = Ok [50; 36.5]%float /\
  strictly_increasing (np_grid [2; 2; 2]%float) = false /\
  integrate_piecewise Notebook.P0 (np_grid [2; 2; 2]%float)
                      Notebook.r Notebook.K_high Notebook.K_low
                      Notebook.t_change
  = Ok [50; 50; 50]%float.
Proof. repeat split; vm_compute; reflexivity. Qed.

(** ** The loop against the reference of the specification *)

(** Past the switch time a strictly increasing grid stays past it. *)
Lemma increasing_stays_past (t_change : pynum) (grid : list pynum) :
  forall a : pynum,
    strictly_increasing (a :: grid) = true ->
    py_lt a t_change = false ->
    Forall (fun ti => py_lt ti t_change = false) grid.
Proof.
  induction grid as [| b rest IH]; intros a Hinc Ha; [constructor |].
  cbn [strictly_increasing] in Hinc. apply andb_prop in Hinc as [Hab Hrest].
  assert (Hb : py_lt b t_change = false).
  { destruct (py_lt b t_change) eqn:Hb; [| reflexivity].
    unfold py_lt in *.
    now rewrite (float_ltb_trans _ _ _ Hab Hb) in Ha. }
  constructor; [exact Hb |]. now apply (IH b).
Qed.

Lemma step_sizes_fixed (dt : float) (t : list float) :
  step_sizes_are (fun _ _ => dt) dt t.
Proof.
  induction t as [| a [| b rest] IH]; cbn; auto.
Qed.

Section Reference.
Variables (r K_high K_low t_change dt : pynum).
Variable step_size : float -> float -> float.

Lemma reference_step (K p q : pynum) (t_prev ti : float) :
  py_truediv p K = Ok q ->
  step_size t_prev ti = value dt ->
  value (py_add p (py_mul (py_mul (py_mul r p) (py_sub py_one q)) dt)) =
  (value p
   + logistic_rhs (value r) (value K) (value p) * step_size t_prev ti)%float.
Proof.
  intros Hq ->. now rewrite (update_value r K dt p q Hq).
Qed.

Lemma euler_states_after_switch (grid : list pynum) :
  forall (p t_prev : pynum) (tl : list pynum),
    euler_states r K_high K_low t_change dt p grid = Ok tl ->
    Forall (fun ti => py_lt ti t_change = false) grid ->
    step_sizes_are step_size (value dt) (map value (t_prev :: grid)) ->
    map value tl =
    reference_after_switch step_size (value r) (value K_low) (value p)
                           (value t_prev) (map value grid).
Proof.
  induction grid as [| ti rest IH]; intros p t_prev tl; cbn [euler_states].
  - now intros [= <-].
  - intros Hrun Hpast Hdt. inversion_clear Hpast as [| ? ? Hti Hrest].
    rewrite Hti in Hrun.
    destruct (py_truediv p K_low) as [q | e] eqn:Hq; [| discriminate].
    cbn [bind] in Hrun.
    destruct (euler_states _ _ _ _ _ _ rest) as [tl' | e] eqn:Hrun';
      [| discriminate].
    injection Hrun as <-.
    cbn [map step_sizes_are] in Hdt. destruct Hdt as [Hstep Hdt].
    cbn [map reference_after_switch]. cbv zeta.
    rewrite <- (reference_step K_low p q (value t_prev) (value ti) Hq Hstep).
    f_equal. now apply IH.
Qed.

Lemma euler_states_before_switch (grid : list pynum) :
  forall (p t_prev : pynum) (tl : list pynum),
    euler_states r K_high K_low t_change dt p grid = Ok tl ->
    strictly_increasing (t_prev :: grid) = true ->
    step_sizes_are step_size (value dt) (map value (t_prev :: grid)) ->
    map value tl =
    reference_before_switch step_size (value r) (value K_high) (value K_low)
                            (value t_change) (value p) (value t_prev)
                            (map value grid).
Proof.
  induction grid as [| ti rest IH]; intros p t_prev tl Hrun Hinc Hdt.
  - cbn in Hrun. now injection Hrun as <-.
  - cbn [map reference_before_switch].
    cbn [strictly_increasing] in Hinc. apply andb_prop in Hinc as [_ Hinc].
    destruct (PrimFloat.ltb (value ti) (value t_change)) eqn:Hlt.
    + cbn [euler_states] in Hrun. unfold py_lt in Hrun. rewrite Hlt in Hrun.
      destruct (py_truediv p K_high) as [q | e] eqn:Hq; [| discriminate].
      cbn [bind] in Hrun.
      destruct (euler_states _ _ _ _ _ _ rest) as [tl' | e] eqn:Hrun';
        [| discriminate].
      injection Hrun as <-.
      cbn [map step_sizes_are] in Hdt. destruct Hdt as [Hstep Hdt].
      cbn [map]. cbv zeta.
      rewrite <- (reference_step K_high p q (value t_prev) (value ti)
                    Hq Hstep).
      f_equal. now apply IH.
    + change (value ti :: map value rest) with (map value (ti :: rest)).
      apply euler_states_after_switch; [exact Hrun | | exact Hdt].
      constructor; [exact Hlt |].
      now apply (increasing_stays_past t_change rest ti).
Qed.
End Reference.

Lemma integrate_piecewise_reference_with (P0 : pynum) (t : list pynum)
      (r K_high K_low t_change : pynum)
      (step_size : float -> float -> float) (traj : list float) :
  strictly_increasing t = true ->
  step_sizes_are step_size (first_spacing t) (map value t) ->
  integrate_piecewise P0 t r K_high K_low t_change = Ok traj ->
  traj = reference_with step_size (value P0) (map value t) (value r)
           (value K_high) (value K_low) (value t_change).
Proof.
  intros Hinc Hdt. rewrite integrate_piecewise_unfold.
  destruct t as [| t0 [| t1 rest]]; try discriminate.
  destruct (euler_states _ _ _ _ _ _ _) as [tl | e] eqn:Hrun;
    [| discriminate].
  intros [= <-]. cbn [map reference_with]. f_equal.
  change (value t1 :: map value rest) with (map value (t1 :: rest)).
  apply (euler_states_before_switch r K_high K_low t_change (py_sub t1 t0));
    [exact Hrun | exact Hinc |].
  unfold py_sub. rewrite value_binop. exact Hdt.
Qed.

(** C5: on a strictly increasing grid every trajectory
    [integrate_piecewise] returns is, entry by entry, the reference
    trajectory: the one computed by switching by hand from [K_high] to
    [K_low] at the first grid time [t[i]] that is not below [t_change],
    never switching back, and applying the same step formula as the loop
    (step size [t[1] - t[0]]) at each grid point.  There is no off-by-one in
    the step that first uses [K_low]. *)
Theorem integrate_piecewise_matches_reference (P0 : pynum) (t : list pynum)
        (r K_high K_low t_change : pynum) (traj : list float) :
  strictly_increasing t = true ->
  integrate_piecewise P0 t r K_high K_low t_change = Ok traj ->
  traj = reference_fixed_step (first_spacing t) (value P0) (map value t)
           (value r) (value K_high) (value K_low) (value t_change).
Proof.
  intros Hinc. apply integrate_piecewise_reference_with; [exact Hinc |].
  apply step_sizes_fixed.
Qed.

(** On [t = [0, 1, 2, 3]] with [t_change = 2]: the second step is the first
    with [K_low]. *)
Lemma integrate_piecewise_matches_reference_witness :
  let traj :=
    [50; 63.5; 0x1.3201a9fbe76c9p+6; 0x1.6ab1867a94d7dp+6]%float in
  integrate_piecewise Notebook.P0 (np_grid [0; 1; 2; 3]%float) Notebook.r
                      Notebook.K_high Notebook.K_low (PyFloat 2)
  = Ok traj /\
  (63.5 + value Notebook.r * 63.5 * (1 - 63.5 / 200) * 1)%float
  = 0x1.3201a9fbe76c9p+6%float /\
  traj = reference_fixed_step 1 50 [0; 1; 2; 3]%float (value Notebook.r)
           500 200 2.
Proof.
  cbv zeta.
  split; [vm_compute; reflexivity |].
  split; [vm_compute; reflexivity |].
  apply (integrate_piecewise_matches_reference
           Notebook.P0 (np_grid [0; 1; 2; 3]%float) Notebook.r
           Notebook.K_high Notebook.K_low (PyFloat 2)
           [50; 63.5; 0x1.3201a9fbe76c9p+6; 0x1.6ab1867a94d7dp+6]%float).
  - reflexivity.
  - vm_compute; reflexivity.
Defined.

(** With the step size [dt = t[i] - t[i-1]] of the specification the
    reference is the same on a grid whose consecutive float64 differences
    all equal [t[1] - t[0]]. *)
Lemma integrate_piecewise_matches_per_pair_reference
      (P0 : pynum) (t : list pynum) (r K_high K_low t_change : pynum)
      (traj : list float) :
  strictly_increasing t = true ->
  uniform_spacing t ->
  integrate_piecewise P0 t r K_high K_low t_change = Ok traj ->
  traj = reference_trajectory (value P0) (map value t) (value r)
           (value K_high) (value K_low) (value t_change).
Proof.
  intros Hinc Hdt. now apply integrate_piecewise_reference_with.
Qed.

(** The trajectory of that run. *)
Lemma reference_on_even_grid :
  uniform_spacing (np_grid [0; 1; 2; 3]%float) /\
  integrate_piecewise Notebook.P0 (np_grid [0; 1; 2; 3]%float) Notebook.r
                      Notebook.K_high Notebook.K_low (PyFloat 2)
  = Ok (reference_trajectory 50 [0; 1; 2; 3]%float (value Notebook.r)
          500 200 2) /\
  reference_trajectory 50 [0; 1; 2; 3]%float (value Notebook.r) 500 200 2
  = [50; 63.5; 0x1.3201a9fbe76c9p+6; 0x1.6ab1867a94d7dp+6]%float /\
  euler_step (value Notebook.r) 200 1 63.5 = 0x1.3201a9fbe76c9p+6%float.
Proof. repeat split; vm_compute; reflexivity. Qed.

(** On a grid that is not evenly spaced the reference taken with
    [dt = t[i] - t[i-1]] is another trajectory: on [t = [0, 1, 3]] it
    advances by [t[2] - t[1] = 2] at the second step (to 96.7613), the loop
    by [t[1] - t[0] = 1] (to 80.13065). *)
Lemma reference_differs_on_uneven_grid :
  let t := np_grid [0; 1; 3]%float in
  let traj := [50; 63.5; 0x1.4085c91d14e3cp+6]%float in
  let reference := [50; 63.5; 0x1.830b923a29c78p+6]%float in
  strictly_increasing t = true /\
  integrate_piecewise Notebook.P0 t Notebook.r
                      Notebook.K_high Notebook.K_low Notebook.t_change
  = Ok traj /\
  reference_trajectory (value Notebook.P0) (map value t) (value Notebook.r)
    (value Notebook.K_high) (value Notebook.K_low) (value Notebook.t_change)
  = reference /\
  traj <> reference.
Proof.
  cbv zeta. repeat split; try (vm_compute; reflexivity).
  intros Heq.
  apply (f_equal (fun l => match nth_error l 2 with
                           | Some x => PrimFloat.ltb x 90
                           | None => false
                           end)) in Heq.
  vm_compute in Heq. discriminate.
Qed.

(** ** A zero or negative capacity *)

Lemma negative_not_python_zero (K : pynum) :
  py_lt K (PyFloat 0) = true -> python_zero K = false.
Proof.
  destruct K as [y | y]; cbn; [| reflexivity]. apply float_ltb_eqb.
Qed.

Lemma logistic_human_returns (P t r K h : pynum) :
  is_np P = true \/ python_zero K = false ->
  exists v : pynum,
    logistic_human P t r K h = Ok v /\
    value v =
    (value r * value P * (1 - value P / value K) - value h)%float.
Proof.
  intros Hsafe. unfold logistic_human.
  destruct (py_truediv_returns P K Hsafe) as [q Hq]. rewrite Hq. cbn [bind].
  eexists. split; [reflexivity |].
  apply py_truediv_value in Hq as [Hq _].
  unfold py_sub, py_mul. now rewrite !value_binop, Hq.
Qed.



(** What the propagated values are on that call, and for [logistic_human]
    on a NumPy state: infinities and NaNs, left in the result. *)
Lemma zero_capacity_gives_infinities :
  integrate_piecewise Notebook.P0 (np_grid [0; 1; 2; 3]%float)
                      Notebook.r Notebook.K_high (PyFloat 0) (PyFloat 2)
  = Ok [50; 63.5; neg_infinity; neg_infinity]%float /\
  logistic_human (NpFloat64 50) (NpFloat64 0)
                 Notebook.r (PyFloat 0) Notebook.h
  = Ok (NpFloat64 neg_infinity) /\
  logistic_human (NpFloat64 0) (NpFloat64 0)
                 Notebook.r (PyFloat 0) Notebook.h
  = Ok (NpFloat64 nan).
Proof. repeat split; vm_compute; reflexivity. Qed.


(** ** The right-hand sides against each other *)

Lemma logistic_human_is_growth_minus_h (P t r K h : pynum) :
  logistic_human P t r K h =
  (g <- logistic_growth P t r K ;; Ok (py_sub g h)).
Proof.
  unfold logistic_human, logistic_growth. rewrite bind_assoc.
  now destruct (py_truediv P K).
Qed.

Lemma py_sub_python_zero (g : pynum) : py_sub g (PyFloat 0) = g.
Proof.
  destruct g as [x | x]; unfold py_sub, binop; cbn;
    now rewrite float_sub_zero.
Qed.

Lemma nonzero_not_python_zero (K : pynum) :
  is_zero (value K) = false -> python_zero K = false.
Proof. now destruct K as [y | y]. Qed.

(** C10 (as the code has it): [logistic_human] is [logistic_growth] minus
    [h], raising when it raises; with [h = 0] the two coincide;
    [logistic_growth] is a zero at [P = 0] when [r] is finite and [K] is a
    non-zero number, and at [P = K] when [K] is finite and non-zero and the
    product [r * K] is finite. *)
Theorem removal_is_growth_minus_h (P t r K h : pynum) :
  logistic_human P t r K h =
  (g <- logistic_growth P t r K ;; Ok (py_sub g h)) /\
  logistic_human P t r K (PyFloat 0) = logistic_growth P t r K /\
  (is_zero (value P) = true ->
   is_finite (value r) = true ->
   is_nan (value K) = false -> is_zero (value K) = false ->
   exists z : pynum,
     logistic_growth P t r K = Ok z /\ is_zero (value z) = true) /\
  (value P = value K ->
   is_finite (value K) = true -> is_zero (value K) = false ->
   is_finite (value r * value K) = true ->
   exists z : pynum,
     logistic_growth P t r K = Ok z /\ is_zero (value z) = true).
Proof.
  split; [apply logistic_human_is_growth_minus_h |].
  split.
  { rewrite logistic_human_is_growth_minus_h.
    destruct (logistic_growth P t r K) as [g | e]; [| reflexivity].
    cbn [bind]. now rewrite py_sub_python_zero. }
  split.
  - intros HP Hr Hnan HK. unfold logistic_growth.
    destruct (py_truediv_returns P K) as [q Hq].
    { right. now apply nonzero_not_python_zero. }
    rewrite Hq. cbn [bind]. eexists. split; [reflexivity |].
    apply py_truediv_value in Hq as [Hq _].
    unfold py_mul, py_sub. rewrite !value_binop, Hq.
    change (value py_one) with 1%float.
    rewrite (float_one_sub_zero _ (float_zero_div _ _ HP Hnan HK)).
    apply float_mul_zero_l; [| reflexivity].
    now apply float_mul_zero_r.
  - intros HPK Hfin HK HrK. unfold logistic_growth.
    destruct (py_truediv_returns P K) as [q Hq].
    { right. now apply nonzero_not_python_zero. }
    rewrite Hq. cbn [bind]. eexists. split; [reflexivity |].
    apply py_truediv_value in Hq as [Hq _].
    unfold py_mul, py_sub. rewrite !value_binop, Hq, HPK.
    change (value py_one) with 1%float.
    rewrite (float_div_self _ Hfin HK).
    now apply float_mul_zero_r.
Qed.

(** At the notebook's parameters [r = 0.3], [K = 500], [h = 10]. *)
Lemma removal_is_growth_minus_h_witness :
  (exists z : pynum,
      logistic_growth (NpFloat64 0) (NpFloat64 0) Notebook.r Notebook.K
      = Ok z /\
      is_zero (value z) = true) /\
  (exists z : pynum,
      logistic_growth (NpFloat64 500) (NpFloat64 0) Notebook.r Notebook.K
      = Ok z /\
      is_zero (value z) = true).
Proof.
  split.
  - apply (proj1 (proj2 (proj2
             (removal_is_growth_minus_h
                (NpFloat64 0) (NpFloat64 0)
                Notebook.r Notebook.K Notebook.h))));
      reflexivity.
  - apply (proj2 (proj2 (proj2
             (removal_is_growth_minus_h
                (NpFloat64 500) (NpFloat64 0)
                Notebook.r Notebook.K Notebook.h))));
      reflexivity.
Defined.

(** C10 as stated fails where the product [r * K] overflows: at
    [P = K = 1e200] with [r = 1e200] the capacity is not zero, and
    [logistic_growth] is [inf * 0.0], a NaN. *)
Lemma equilibrium_overflows_to_nan :
  let big := PyFloat 0x1.4e718d7d7625ap+664 in   (* 1e200 *)
  is_zero (value big) = false /\
  logistic_growth big (PyFloat 0) big big = Ok (PyFloat nan) /\
  is_zero nan = false.
Proof. repeat split; vm_compute; reflexivity. Qed.

(** * Further properties of the code *)

(** ** Which exception, and when *)

(** X1: [integrate_piecewise] raises [IndexError] exactly on the grids with
    fewer than two points. *)
Theorem IndexError_iff_short_grid (P0 : pynum) (t : list pynum)
        (r K_high K_low t_change : pynum) :
  integrate_piecewise P0 t r K_high K_low t_change = Raise IndexError <->
  (length t < 2)%nat.
Proof.
  split.
  - intros Hraise.
    destruct (Nat.lt_ge_cases (length t) 2) as [Hlt | Hge]; [exact Hlt |].
    now destruct (long_grid_no_IndexError P0 t r K_high K_low t_change Hge).
  - intros Hlen. rewrite integrate_piecewise_unfold.
    destruct t as [| t0 [| t1 rest]]; cbn [length] in Hlen; try lia;
      reflexivity.
Qed.

Lemma first_division_raises (P0 : pynum) (t : list pynum)
      (r K_high K_low t_change : pynum) :
  (2 <= length t)%nat ->
  is_np P0 = false ->
  python_zero (capacity_at K_high K_low t_change (nth 1 t py_one)) = true ->
  integrate_piecewise P0 t r K_high K_low t_change = Raise ZeroDivisionError.
Proof.
  intros Hlen HP0 Hzero. rewrite integrate_piecewise_unfold.
  destruct t as [| t0 [| t1 rest]]; cbn [length] in Hlen; try lia.
  cbn [nth] in Hzero. unfold capacity_at in Hzero.
  cbn [euler_states].
  destruct (if py_lt t1 t_change then K_high else K_low) as [y | y];
    [| discriminate].
  destruct P0 as [x | x]; [| discriminate].
  cbn in Hzero |- *. now rewrite Hzero.
Qed.

(** X2: on a NumPy grid of at least two points a [ZeroDivisionError] can
    only come from the first step: the run raises it exactly when [P0] is a
    Python number and the capacity of the first step is a Python zero,
    whatever the capacities of the later steps are. *)
Theorem numpy_grid_raises_only_at_first_step (P0 : pynum) (t : list pynum)
        (r K_high K_low t_change : pynum) :
  forallb is_np t = true ->
  (2 <= length t)%nat ->
  (integrate_piecewise P0 t r K_high K_low t_change
   = Raise ZeroDivisionError <->
   is_np P0 = false /\
   python_zero (capacity_at K_high K_low t_change (nth 1 t py_one)) = true).
Proof.
  intros Hgrid Hlen. split.
  - intros Hraise.
    destruct (is_np P0) eqn:HP0.
    + destruct (integrate_piecewise_returns P0 t r K_high K_low t_change
                  Hlen) as [traj Hrun]; [now left |]. congruence.
    + split; [reflexivity |].
      destruct (python_zero (capacity_at K_high K_low t_change
                                         (nth 1 t py_one))) eqn:HK1;
        [reflexivity |].
      destruct (integrate_piecewise_returns P0 t r K_high K_low t_change
                  Hlen) as [traj Hrun]; [| congruence].
      right; right. now split.
  - intros [HP0 HK1]. now apply first_division_raises.
Qed.

(** The notebook's kind of call, with [K_high = 0]: the first step raises;
    with [K_low = 0] reached at the second step nothing is raised. *)
Lemma numpy_grid_raises_only_at_first_step_witness :
  integrate_piecewise Notebook.P0 (np_grid [0; 1; 2; 3]%float) Notebook.r
                      (PyFloat 0) Notebook.K_low Notebook.t_change
  = Raise ZeroDivisionError /\
  integrate_piecewise Notebook.P0 (np_grid [0; 1; 2; 3]%float) Notebook.r
                      Notebook.K_high (PyFloat 0) (PyFloat 2)
  <> Raise ZeroDivisionError.
Proof.
  split.
  - apply (numpy_grid_raises_only_at_first_step
             Notebook.P0 (np_grid [0; 1; 2; 3]%float) Notebook.r
             (PyFloat 0) Notebook.K_low Notebook.t_change);
      [reflexivity | cbn; lia | split; reflexivity].
  - intros Hraise.
    apply (numpy_grid_raises_only_at_first_step
             Notebook.P0 (np_grid [0; 1; 2; 3]%float) Notebook.r
             Notebook.K_high (PyFloat 0) (PyFloat 2)) in Hraise;
      [| reflexivity | cbn; lia].
    destruct Hraise as [_ Hzero]. vm_compute in Hzero. discriminate.
Defined.

Section PythonRun.
Variables (r K_high K_low t_change dt : pynum).
Hypothesis Hr : is_np r = false.
Hypothesis Hhigh : is_np K_high = false.
Hypothesis Hlow : is_np K_low = false.
Hypothesis Hdt : is_np dt = false.

Lemma python_state_stays_python (p K q : pynum) :
  is_np p = false -> is_np K = false ->
  py_truediv p K = Ok q ->
  is_np (py_add p (py_mul (py_mul (py_mul r p) (py_sub py_one q)) dt))
  = false.
Proof.
  intros Hp HK Hq. apply py_truediv_value in Hq as [_ Hq].
  unfold py_add, py_mul, py_sub.
  rewrite !is_np_binop, Hq, Hp, HK, Hr, Hdt. reflexivity.
Qed.

Lemma euler_states_python_raises (grid : list pynum) :
  forall p : pynum,
    is_np p = false ->
    Exists (fun ti =>
              python_zero (capacity_at K_high K_low t_change ti) = true)
           grid ->
    euler_states r K_high K_low t_change dt p grid = Raise ZeroDivisionError.
Proof.
  induction grid as [| ti rest IH]; intros p Hp Hex.
  - inversion Hex.
  - cbn [euler_states].
    assert (HK : is_np (if py_lt ti t_change then K_high else K_low) = false)
      by now destruct (py_lt ti t_change).
    destruct (py_truediv p _) as [q | e] eqn:Hq; cbn [bind].
    + rewrite IH;
        [reflexivity | eapply python_state_stays_python; eassumption |].
      inversion Hex as [? ? Hzero | ? ? Hlater]; subst; [| exact Hlater].
      exfalso. unfold capacity_at in Hzero.
      destruct (if py_lt ti t_change then K_high else K_low) as [y | y];
        [| discriminate].
      destruct p as [x | x]; [| discriminate].
      cbn in Hzero, Hq. now rewrite Hzero in Hq.
    + now rewrite (py_truediv_exn _ _ _ Hq).
Qed.

Lemma euler_states_python_returns (grid : list pynum) :
  forall p : pynum,
    Forall (fun ti =>
              python_zero (capacity_at K_high K_low t_change ti) = false)
           grid ->
    exists tl, euler_states r K_high K_low t_change dt p grid = Ok tl.
Proof.
  induction grid as [| ti rest IH]; intros p Hall; cbn [euler_states].
  - eauto.
  - inversion_clear Hall as [| ? ? Hti Hrest].
    destruct (py_truediv_returns p
                (if py_lt ti t_change then K_high else K_low)) as [q Hq].
    { now right. }
    rewrite Hq. cbn [bind].
    match goal with
    | |- context [euler_states _ _ _ _ _ ?p' rest] =>
        destruct (IH p' Hrest) as [tl Htl]
    end.
    rewrite Htl. cbn [bind]. eauto.
Qed.
End PythonRun.

Lemma zero_capacity_somewhere_or_nowhere (K_high K_low t_change : pynum)
      (grid : list pynum) :
  Exists (fun ti => python_zero (capacity_at K_high K_low t_change ti) = true)
         grid \/
  Forall (fun ti => python_zero (capacity_at K_high K_low t_change ti) = false)
         grid.
Proof.
  induction grid as [| ti rest [Hex | Hall]].
  - right. constructor.
  - left. now constructor 2.
  - destruct (python_zero (capacity_at K_high K_low t_change ti)) eqn:Hti.
    + left. now constructor.
    + right. now constructor.
Qed.

(** X3: a [ZeroDivisionError] can only come from a capacity that is
    selected: if a run raises it, some grid time from [t[1]] on selects a
    capacity that is a Python zero; a zero capacity that no grid time
    selects is harmless. *)
Theorem ZeroDivisionError_needs_selected_zero_capacity
        (P0 : pynum) (t : list pynum) (r K_high K_low t_change : pynum) :
  integrate_piecewise P0 t r K_high K_low t_change
  = Raise ZeroDivisionError ->
  Exists (fun ti => python_zero (capacity_at K_high K_low t_change ti) = true)
         (tl t).
Proof.
  rewrite integrate_piecewise_unfold.
  destruct t as [| t0 [| t1 rest]]; try discriminate.
  cbn [tl]. intros Hraise.
  destruct (zero_capacity_somewhere_or_nowhere K_high K_low t_change
              (t1 :: rest)) as [Hex | Hall]; [exact Hex |].
  destruct (euler_states_python_returns r K_high K_low t_change
              (py_sub t1 t0) (t1 :: rest) P0 Hall) as [tl' Htl].
  rewrite Htl in Hraise. discriminate.
Qed.

(** A Python list as grid: [K_low = 0] raises once the grid reaches
    [t_change = 2], at [t[2]]. *)
Lemma ZeroDivisionError_needs_selected_zero_capacity_witness :
  let t := map PyFloat [0; 1; 2; 3]%float in
  integrate_piecewise Notebook.P0 t Notebook.r
                      Notebook.K_high (PyFloat 0) (PyFloat 2)
  = Raise ZeroDivisionError /\
  Exists (fun ti =>
            python_zero (capacity_at Notebook.K_high (PyFloat 0)
                                     (PyFloat 2) ti) = true)
         (tl t).
Proof.
  cbv zeta. split; [vm_compute; reflexivity |].
  apply (ZeroDivisionError_needs_selected_zero_capacity
           Notebook.P0 (map PyFloat [0; 1; 2; 3]%float) Notebook.r
           Notebook.K_high (PyFloat 0) (PyFloat 2)).
  vm_compute; reflexivity.
Defined.

(** ** What the trajectory depends on *)

Section Along.
Variables (r K_high K_low t_change dt : pynum).

Lemma euler_states_app (grid grid' : list pynum) :
  forall p : pynum,
    euler_states r K_high K_low t_change dt p (grid ++ grid') =
    (tl <- euler_states r K_high K_low t_change dt p grid ;;
     tl' <- euler_states r K_high K_low t_change dt (last tl p) grid' ;;
     Ok (tl ++ tl')).
Proof.
  induction grid as [| ti rest IH]; intros p.
  - cbn [app euler_states bind last].
    now destruct (euler_states _ _ _ _ _ p grid').
  - cbn [app euler_states].
    destruct (py_truediv p _) as [q | e]; [| reflexivity]. cbn [bind].
    rewrite IH.
    destruct (euler_states _ _ _ _ _ _ rest) as [tl | e]; [| reflexivity].
    cbn [bind].
    replace (last (py_add p (py_mul (py_mul (py_mul r p) (py_sub py_one q)) dt)
                     :: tl) p)
      with (last tl (py_add p (py_mul (py_mul (py_mul r p)
                                        (py_sub py_one q)) dt))).
    + now destruct (euler_states _ _ _ _ _ _ grid').
    + destruct tl as [| s tl]; [reflexivity |].
      cbn [last]. generalize s. clear.
      induction tl as [| s' tl IH]; intros s; [reflexivity |].
      cbn [last] in *. apply IH.
Qed.

Lemma euler_states_same_side (grid : list pynum) :
  forall (grid' : list pynum) (p : pynum),
    map (fun ti => py_lt ti t_change) grid =
    map (fun ti => py_lt ti t_change) grid' ->
    euler_states r K_high K_low t_change dt p grid =
    euler_states r K_high K_low t_change dt p grid'.
Proof.
  induction grid as [| ti rest IH]; intros [| ti' rest'] p Hside;
    try discriminate; [reflexivity |].
  cbn [map] in Hside. injection Hside as Hti Hrest.
  cbn [euler_states]. rewrite Hti.
  destruct (py_truediv p _) as [q | e]; [| reflexivity]. cbn [bind].
  now rewrite (IH rest').
Qed.
End Along.

Lemma euler_states_before_change (r K_high K_low K_low' t_change dt : pynum)
      (grid : list pynum) :
  forall p : pynum,
    Forall (fun ti => py_lt ti t_change = true) grid ->
    euler_states r K_high K_low t_change dt p grid =
    euler_states r K_high K_low' t_change dt p grid.
Proof.
  induction grid as [| ti rest IH]; intros p Hall; [reflexivity |].
  inversion_clear Hall as [| ? ? Hti Hrest].
  cbn [euler_states]. rewrite Hti.
  destruct (py_truediv p K_high) as [q | e]; [| reflexivity]. cbn [bind].
  now rewrite IH.
Qed.

Lemma euler_states_past_change (r K_high K_high' K_low t_change dt : pynum)
      (grid : list pynum) :
  forall p : pynum,
    Forall (fun ti => py_lt ti t_change = false) grid ->
    euler_states r K_high K_low t_change dt p grid =
    euler_states r K_high' K_low t_change dt p grid.
Proof.
  induction grid as [| ti rest IH]; intros p Hall; [reflexivity |].
  inversion_clear Hall as [| ? ? Hti Hrest].
  cbn [euler_states]. rewrite Hti.
  destruct (py_truediv p K_low) as [q | e]; [| reflexivity]. cbn [bind].
  now rewrite IH.
Qed.

(** X4: the entries of a trajectory do not depend on the grid points that
    come after them: a run on a grid extended by further points returns the
    trajectory of the shorter run followed by new entries, and raises the
    exception of the shorter run when that one raises. *)
Theorem extending_grid_extends_trajectory (P0 : pynum) (t t' : list pynum)
        (r K_high K_low t_change : pynum) :
  (2 <= length t)%nat ->
  (forall traj' : list float,
      integrate_piecewise P0 (t ++ t') r K_high K_low t_change = Ok traj' ->
      integrate_piecewise P0 t r K_high K_low t_change
      = Ok (firstn (length t) traj')) /\
  (forall e : exn,
      integrate_piecewise P0 t r K_high K_low t_change = Raise e ->
      integrate_piecewise P0 (t ++ t') r K_high K_low t_change = Raise e).
Proof.
  intros Hlen. rewrite !integrate_piecewise_unfold.
  destruct t as [| t0 [| t1 rest]]; cbn [length] in Hlen; try lia.
  cbn [app].
  change (t1 :: rest ++ t') with ((t1 :: rest) ++ t').
  rewrite euler_states_app.
  destruct (euler_states _ _ _ _ _ _ (t1 :: rest)) as [tl | e] eqn:Hrun;
    cbn [bind].
  - split; [| discriminate].
    intros traj'.
    destruct (euler_states _ _ _ _ _ _ t') as [tl' | e]; [| discriminate].
    cbn [bind]. intros [= <-]. f_equal.
    apply euler_states_length in Hrun.
    change (length (t0 :: t1 :: rest)) with (S (length (t1 :: rest))).
    rewrite <- Hrun, firstn_cons. f_equal.
    rewrite map_app, firstn_app, length_map, Nat.sub_diag, firstn_O, app_nil_r.
    rewrite firstn_all2; [reflexivity |]. now rewrite length_map.
  - split; [discriminate |]. now intros e' [= <-].
Qed.

Lemma extending_grid_extends_trajectory_witness :
  let t := np_grid [0; 1; 2]%float in
  let t' := np_grid [3; 4]%float in
  (forall traj' : list float,
      integrate_piecewise Notebook.P0 (t ++ t') Notebook.r
                          Notebook.K_high Notebook.K_low (PyFloat 2)
      = Ok traj' ->
      integrate_piecewise Notebook.P0 t Notebook.r
                          Notebook.K_high Notebook.K_low (PyFloat 2)
      = Ok (firstn 3 traj')) /\
  (forall e : exn,
      integrate_piecewise Notebook.P0 t Notebook.r
                          Notebook.K_high Notebook.K_low (PyFloat 2)
      = Raise e ->
      integrate_piecewise Notebook.P0 (t ++ t') Notebook.r
                          Notebook.K_high Notebook.K_low (PyFloat 2)
      = Raise e).
Proof.
  apply (extending_grid_extends_trajectory
           Notebook.P0 (np_grid [0; 1; 2]%float) (np_grid [3; 4]%float)
           Notebook.r Notebook.K_high Notebook.K_low (PyFloat 2)).
  cbn. lia.
Defined.

(** X5: past [t[1]] the grid times matter only through the side of
    [t_change] they lie on: two grids with the same first two points, the
    same length and, index by index, the same outcome of [t[i] < t_change]
    give the same result, however their points are spaced. *)
Theorem later_grid_times_only_compared (P0 t0 t1 : pynum)
        (rest rest' : list pynum) (r K_high K_low t_change : pynum) :
  map (fun ti => py_lt ti t_change) rest =
  map (fun ti => py_lt ti t_change) rest' ->
  integrate_piecewise P0 (t0 :: t1 :: rest) r K_high K_low t_change =
  integrate_piecewise P0 (t0 :: t1 :: rest') r K_high K_low t_change.
Proof.
  intros Hside. rewrite !integrate_piecewise_unfold.
  rewrite (euler_states_same_side r K_high K_low t_change (py_sub t1 t0)
             (t1 :: rest) (t1 :: rest') P0); [reflexivity |].
  cbn [map]. now rewrite Hside.
Qed.

(** The even grid [[0, 1, 2, 3]] and the uneven grid [[0, 1, 7, 9]]. *)
Lemma later_grid_times_only_compared_witness :
  integrate_piecewise Notebook.P0
    (NpFloat64 0 :: NpFloat64 1 :: np_grid [2; 3]%float)
    Notebook.r Notebook.K_high Notebook.K_low Notebook.t_change =
  integrate_piecewise Notebook.P0
    (NpFloat64 0 :: NpFloat64 1 :: np_grid [7; 9]%float)
    Notebook.r Notebook.K_high Notebook.K_low Notebook.t_change.
Proof.
  apply (later_grid_times_only_compared
           Notebook.P0 (NpFloat64 0) (NpFloat64 1)
           (np_grid [2; 3]%float) (np_grid [7; 9]%float)
           Notebook.r Notebook.K_high Notebook.K_low Notebook.t_change).
  reflexivity.
Defined.

(** X6: when every grid time from [t[1]] on is below [t_change], [K_low]
    is never used: the result is the same for every [K_low], a zero one
    included. *)
Theorem K_low_unused_before_t_change (P0 : pynum) (t : list pynum)
        (r K_high K_low K_low' t_change : pynum) :
  Forall (fun ti => py_lt ti t_change = true) (tl t) ->
  integrate_piecewise P0 t r K_high K_low t_change =
  integrate_piecewise P0 t r K_high K_low' t_change.
Proof.
  intros Hall. rewrite !integrate_piecewise_unfold.
  destruct t as [| t0 [| t1 rest]]; try reflexivity.
  cbn [tl] in Hall.
  now rewrite (euler_states_before_change r K_high K_low K_low' t_change
                 (py_sub t1 t0) (t1 :: rest) P0 Hall).
Qed.

Lemma K_low_unused_before_t_change_witness :
  integrate_piecewise Notebook.P0 (np_grid [0; 1; 2; 3]%float) Notebook.r
                      Notebook.K_high Notebook.K_low Notebook.t_change =
  integrate_piecewise Notebook.P0 (np_grid [0; 1; 2; 3]%float) Notebook.r
                      Notebook.K_high (PyFloat 0) Notebook.t_change.
Proof.
  apply (K_low_unused_before_t_change
           Notebook.P0 (np_grid [0; 1; 2; 3]%float) Notebook.r
           Notebook.K_high Notebook.K_low (PyFloat 0) Notebook.t_change).
  repeat constructor.
Defined.

Lemma float_ltb_nan_r (x y : float) :
  is_nan y = true -> PrimFloat.ltb x y = false.
Proof.
  rewrite is_nan_spec, ltb_spec. unfold SFltb.
  destruct (Prim2SF y) as [s | s | | s m e]; try discriminate.
  now destruct (Prim2SF x) as [s | s | | s m e].
Qed.

Lemma float_ltb_nan_l (x y : float) :
  is_nan x = true -> PrimFloat.ltb x y = false.
Proof.
  rewrite is_nan_spec, ltb_spec. unfold SFltb.
  now destruct (Prim2SF x) as [s | s | | s m e].
Qed.

(** X7: when no grid time from [t[1]] on is below [t_change] -- in
    particular when [t_change] is a NaN, or the grid times are NaNs --
    [K_high] is never used: the result is the same for every [K_high]. *)
Theorem K_high_unused_past_t_change (P0 : pynum) (t : list pynum)
        (r K_high K_high' K_low t_change : pynum) :
  is_nan (value t_change) = true \/
  Forall (fun ti => is_nan (value ti) = true \/ py_lt ti t_change = false)
         (tl t) ->
  integrate_piecewise P0 t r K_high K_low t_change =
  integrate_piecewise P0 t r K_high' K_low t_change.
Proof.
  intros Hpast.
  assert (Hall : Forall (fun ti => py_lt ti t_change = false) (tl t)).
  { destruct Hpast as [Hnan | Hall].
    - apply Forall_forall. intros ti _. now apply float_ltb_nan_r.
    - eapply Forall_impl; [| exact Hall].
      intros ti [Hnan | Hge]; [now apply float_ltb_nan_l | exact Hge]. }
  rewrite !integrate_piecewise_unfold.
  destruct t as [| t0 [| t1 rest]]; try reflexivity.
  cbn [tl] in Hall.
  now rewrite (euler_states_past_change r K_high K_high' K_low t_change
                 (py_sub t1 t0) (t1 :: rest) P0 Hall).
Qed.

Lemma K_high_unused_past_t_change_witness :
  integrate_piecewise Notebook.P0 (np_grid [0; 1; 2; 3]%float) Notebook.r
                      Notebook.K_high Notebook.K_low (PyFloat nan) =
  integrate_piecewise Notebook.P0 (np_grid [0; 1; 2; 3]%float) Notebook.r
                      (PyFloat 0) Notebook.K_low (PyFloat nan).
Proof.
  apply (K_high_unused_past_t_change
           Notebook.P0 (np_grid [0; 1; 2; 3]%float) Notebook.r
           Notebook.K_high (PyFloat 0) Notebook.K_low (PyFloat nan)).
  left. reflexivity.
Defined.

(** ** States the loop keeps *)

Lemma float_add_zeros (x y : float) :
  is_zero x = true -> is_zero y = true -> is_zero (x + y) = true.
Proof.
  rewrite !is_zero_spec, add_spec.
  now destruct (Prim2SF x) as [[|] | s | | s m e],
               (Prim2SF y) as [[|] | s' | | s' m' e'].
Qed.

Lemma float_sub_zeros (x y : float) :
  is_zero x = true -> is_zero y = true -> is_zero (x - y) = true.
Proof.
  rewrite !is_zero_spec, sub_spec.
  now destruct (Prim2SF x) as [[|] | s | | s m e],
               (Prim2SF y) as [[|] | s' | | s' m' e'].
Qed.

Lemma float_add_zero_r (x z : float) :
  is_finite x = true -> is_zero x = false -> is_zero z = true ->
  (x + z)%float = x.
Proof.
  rewrite is_finite_spec, !is_zero_spec. intros Hfin Hnz Hz.
  apply Prim2SF_inj. rewrite add_spec.
  now destruct (Prim2SF x) as [s | s | | s m e],
               (Prim2SF z) as [s' | s' | | s' m' e'].
Qed.

Lemma float_nan_add (x : float) : (nan + x)%float = nan.
Proof.
  apply Prim2SF_inj. rewrite add_spec.
  change (Prim2SF nan) with S754_nan. reflexivity.
Qed.

Lemma is_finite_opp (x : float) : is_finite (- x) = is_finite x.
Proof.
  rewrite !is_finite_spec, opp_spec.
  now destruct (Prim2SF x) as [s | s | | s m e].
Qed.

(** One step from a zero state, and from a state at the capacity. *)
Lemma euler_step_zero (r K dt p : float) :
  is_finite r = true -> is_finite dt = true ->
  is_nan K = false -> is_zero K = false ->
  is_zero p = true ->
  is_zero (euler_step r K dt p) = true.
Proof.
  intros Hr Hdt Hnan HK Hp. unfold euler_step.
  rewrite (float_one_sub_zero _ (float_zero_div _ _ Hp Hnan HK)).
  apply float_add_zeros; [exact Hp |].
  apply float_mul_zero_l; [| exact Hdt].
  apply float_mul_zero_l; [| reflexivity].
  now apply float_mul_zero_r.
Qed.

Lemma euler_step_at_capacity (r K dt : float) :
  is_finite K = true -> is_zero K = false ->
  is_finite (r * K) = true -> is_finite dt = true ->
  euler_step r K dt K = K.
Proof.
  intros Hfin HK HrK Hdt. unfold euler_step.
  rewrite (float_div_self _ Hfin HK).
  apply float_add_zero_r; [exact Hfin | exact HK |].
  apply float_mul_zero_l; [| exact Hdt].
  now apply float_mul_zero_r.
Qed.

Lemma euler_step_nan (r K dt : float) : euler_step r K dt nan = nan.
Proof. unfold euler_step. apply float_nan_add. Qed.

(** An invariant of the state that every step of the grid preserves holds
    of every entry of the trajectory. *)
Lemma euler_states_invariant (Inv : float -> Prop)
      (r K_high K_low t_change dt : pynum) (grid : list pynum) :
  (forall ti : pynum,
      In ti grid ->
      forall p : float,
        Inv p ->
        Inv (euler_step (value r)
                        (value (capacity_at K_high K_low t_change ti))
                        (value dt) p)) ->
  forall (p : pynum) (tl : list pynum),
    euler_states r K_high K_low t_change dt p grid = Ok tl ->
    Inv (value p) ->
    Forall Inv (map value tl).
Proof.
  induction grid as [| ti rest IH]; intros Hstep p tl; cbn [euler_states].
  - intros [= <-] _. constructor.
  - destruct (py_truediv p _) as [q | e] eqn:Hq; [| discriminate].
    cbn [bind].
    destruct (euler_states _ _ _ _ _ _ rest) as [tl' | e] eqn:Hrest;
      [| discriminate].
    intros [= <-] Hp. cbn [map].
    assert (Hnext : Inv (value (py_add p (py_mul (py_mul (py_mul r p)
                                          (py_sub py_one q)) dt)))).
    { rewrite (update_value r _ dt p q Hq).
      apply (Hstep ti); [now left | exact Hp]. }
    constructor; [exact Hnext |].
    eapply IH; [| exact Hrest | exact Hnext].
    intros ti' Hin. apply Hstep. now right.
Qed.

Lemma integrate_piecewise_invariant (Inv : float -> Prop)
      (P0 : pynum) (t : list pynum) (r K_high K_low t_change : pynum)
      (traj : list float) :
  (forall ti : pynum,
      In ti (tl t) ->
      forall p : float,
        Inv p ->
        Inv (euler_step (value r)
                        (value (capacity_at K_high K_low t_change ti))
                        (first_spacing t) p)) ->
  integrate_piecewise P0 t r K_high K_low t_change = Ok traj ->
  Inv (value P0) ->
  Forall Inv traj.
Proof.
  intros Hstep. rewrite integrate_piecewise_unfold.
  destruct t as [| t0 [| t1 rest]]; try discriminate.
  destruct (euler_states _ _ _ _ _ _ _) as [tl' |] eqn:Hrun; [| discriminate].
  intros [= <-] HP0. constructor; [exact HP0 |].
  eapply euler_states_invariant; [| exact Hrun | exact HP0].
  cbn [tl first_spacing] in Hstep. unfold py_sub. rewrite value_binop.
  exact Hstep.
Qed.

Lemma selected_capacities_returns (P0 : pynum) (t : list pynum)
      (r K_high K_low t_change : pynum) :
  (2 <= length t)%nat ->
  Forall (fun ti => python_zero (capacity_at K_high K_low t_change ti) = false)
         (tl t) ->
  exists traj, integrate_piecewise P0 t r K_high K_low t_change = Ok traj.
Proof.
  intros Hlen Hall. rewrite integrate_piecewise_unfold.
  destruct t as [| t0 [| t1 rest]]; cbn [length] in Hlen; try lia.
  cbn [tl] in Hall.
  destruct (euler_states_python_returns r K_high K_low t_change
              (py_sub t1 t0) (t1 :: rest) P0 Hall) as [tl' Htl].
  rewrite Htl. cbn [bind]. eauto.
Qed.

(** X8: an extinct population stays extinct.  With a zero initial state,
    a finite [r], a finite spacing [t[1] - t[0]] and capacities that are
    non-zero numbers, the run returns, and every entry of the trajectory is
    a zero. *)
Theorem zero_population_stays_zero (P0 : pynum) (t : list pynum)
        (r K_high K_low t_change : pynum) :
  (2 <= length t)%nat ->
  is_zero (value P0) = true ->
  is_finite (value r) = true ->
  is_finite (first_spacing t) = true ->
  is_nan (value K_high) = false -> is_zero (value K_high) = false ->
  is_nan (value K_low) = false -> is_zero (value K_low) = false ->
  exists traj : list float,
    integrate_piecewise P0 t r K_high K_low t_change = Ok traj /\
    length traj = length t /\
    Forall (fun state => is_zero state = true) traj.
Proof.
  intros Hlen HP0 Hr Hdt Hnh Hzh Hnl Hzl.
  destruct (integrate_piecewise_returns P0 t r K_high K_low t_change Hlen)
    as [traj Hrun].
  { right; left. split; now apply nonzero_not_python_zero. }
  exists traj. split; [exact Hrun |].
  split; [now apply (integrate_piecewise_shape _ _ _ _ _ _ _ Hrun) |].
  apply (integrate_piecewise_invariant
           (fun state => is_zero state = true)
           P0 t r K_high K_low t_change traj); [| exact Hrun | exact HP0].
  intros ti _ p Hp. unfold capacity_at.
  destruct (py_lt ti t_change); now apply euler_step_zero.
Qed.

Lemma zero_population_stays_zero_witness :
  exists traj : list float,
    integrate_piecewise (PyFloat 0) (np_grid [0; 1; 2; 3]%float) Notebook.r
                        Notebook.K_high Notebook.K_low (PyFloat 2)
    = Ok traj /\
    length traj = 4%nat /\
    Forall (fun state => is_zero state = true) traj.
Proof.
  apply (zero_population_stays_zero
           (PyFloat 0) (np_grid [0; 1; 2; 3]%float) Notebook.r
           Notebook.K_high Notebook.K_low (PyFloat 2));
    try reflexivity.
  cbn. lia.
Defined.

(** X9: a population at the carrying capacity stays there.  When the
    capacity selected at every step is the initial state [P0], a finite
    non-zero number, and [r * P0] and the spacing [t[1] - t[0]] are finite,
    the run returns the constant trajectory [P0, ..., P0]. *)
Theorem population_at_capacity_stays (P0 : pynum) (t : list pynum)
        (r K_high K_low t_change : pynum) :
  (2 <= length t)%nat ->
  is_finite (value P0) = true -> is_zero (value P0) = false ->
  is_finite (value r * value P0) = true ->
  is_finite (first_spacing t) = true ->
  Forall (fun ti =>
            value (capacity_at K_high K_low t_change ti) = value P0) (tl t) ->
  integrate_piecewise P0 t r K_high K_low t_change
  = Ok (repeat (value P0) (length t)).
Proof.
  intros Hlen Hfin Hnz HrK Hdt Hcap.
  destruct (selected_capacities_returns P0 t r K_high K_low t_change Hlen)
    as [traj Hrun].
  { eapply Forall_impl; [| exact Hcap].
    intros ti Hti. apply nonzero_not_python_zero. now rewrite Hti. }
  rewrite Hrun. f_equal.
  destruct (integrate_piecewise_shape _ _ _ _ _ _ _ Hrun) as [Hlength _].
  rewrite <- Hlength. apply Forall_eq_repeat.
  apply (integrate_piecewise_invariant (eq (value P0))
           P0 t r K_high K_low t_change traj); [| exact Hrun | reflexivity].
  intros ti Hin p <-.
  rewrite Forall_forall in Hcap. rewrite (Hcap ti Hin).
  symmetry. now apply euler_step_at_capacity.
Qed.

(** Starting at [K_high = 500] on a grid that stays before [t_change]. *)
Lemma population_at_capacity_stays_witness :
  integrate_piecewise (PyFloat 500) (np_grid [0; 1; 2; 3]%float) Notebook.r
                      Notebook.K_high Notebook.K_low Notebook.t_change
  = Ok (repeat 500%float 4).
Proof.
  apply (population_at_capacity_stays
           (PyFloat 500) (np_grid [0; 1; 2; 3]%float) Notebook.r
           Notebook.K_high Notebook.K_low Notebook.t_change);
    try reflexivity.
  - cbn. lia.
  - repeat constructor.
Defined.

Lemma Some_float_inj (x y : float) : Some x = Some y -> x = y.
Proof.
  intros Heq.
  exact (f_equal (fun o => match o with Some z => z | None => x end) Heq).
Qed.

(** X10: a NaN is absorbing.  Once an entry of the trajectory is a NaN,
    every later entry is a NaN. *)
Theorem nan_state_propagates (P0 : pynum) (t : list pynum)
        (r K_high K_low t_change : pynum) (traj : list float) (i j : nat) :
  integrate_piecewise P0 t r K_high K_low t_change = Ok traj ->
  nth_error traj i = Some nan ->
  (i <= j)%nat -> (j < length t)%nat ->
  nth_error traj j = Some nan.
Proof.
  intros Hrun Hi Hij. induction Hij as [| j Hij IH]; intros Hj.
  - exact Hi.
  - destruct (nth_error t (S j)) as [tj |] eqn:Htj.
    2:{ apply nth_error_None in Htj. lia. }
    destruct (integrate_piecewise_step P0 t r K_high K_low t_change traj
                (S j) tj Hrun ltac:(lia) Htj) as (p & Hprev & Hcur).
    replace (S j - 1)%nat with j in Hprev by lia.
    rewrite (IH ltac:(lia)) in Hprev.
    apply Some_float_inj in Hprev.
    rewrite Hcur, <- Hprev. f_equal. apply euler_step_nan.
Qed.

(** With [K_low = 0] a zero state divides to [0/0] at the switch. *)
Lemma nan_state_propagates_witness :
  exists traj : list float,
    integrate_piecewise (NpFloat64 0) (np_grid [0; 1; 2; 3]%float) Notebook.r
                        Notebook.K_high (PyFloat 0) (PyFloat 2)
    = Ok traj /\
    nth_error traj 2 = Some nan /\
    nth_error traj 3 = Some nan.
Proof.
  eexists. split; [vm_compute; reflexivity |].
  split; [reflexivity |].
  apply (nan_state_propagates
           (NpFloat64 0) (np_grid [0; 1; 2; 3]%float) Notebook.r
           Notebook.K_high (PyFloat 0) (PyFloat 2) _ 2 3).
  - vm_compute; reflexivity.
  - reflexivity.
  - lia.
  - cbn. lia.
Defined.

(** ** The right-hand sides *)

(** X12: every step of the loop adds [dt] times the value [logistic_piecewise]
    takes at the previous state and at the grid time [t[i]] the step leads
    to (not the time [t[i-1]] it starts from): the formula inlined in the
    loop agrees with the stand-alone function. *)
Theorem step_adds_logistic_piecewise (P0 : pynum) (t : list pynum)
        (r K_high K_low t_change : pynum) (traj : list float)
        (i : nat) (ti : pynum) :
  integrate_piecewise P0 t r K_high K_low t_change = Ok traj ->
  (1 <= i)%nat ->
  nth_error t i = Some ti ->
  exists (state_prev : float) (dP : pynum),
    nth_error traj (i - 1) = Some state_prev /\
    logistic_piecewise (NpFloat64 state_prev) ti r K_high K_low t_change
    = Ok dP /\
    nth_error traj i = Some (state_prev + value dP * first_spacing t)%float.
Proof.
  intros Hrun Hi Hti.
  destruct (integrate_piecewise_step P0 t r K_high K_low t_change traj i ti
              Hrun Hi Hti) as (p & Hprev & Hcur).
  exists p. eexists. split; [exact Hprev |].
  split; [reflexivity |].
  rewrite Hcur. unfold euler_step, capacity_at, py_mul, py_sub.
  now rewrite !value_binop.
Qed.

Lemma step_adds_logistic_piecewise_witness :
  exists traj : list float,
    integrate_piecewise Notebook.P0 (np_grid [0; 1; 2]%float) Notebook.r
                        Notebook.K_high Notebook.K_low (PyFloat 2)
    = Ok traj /\
    exists (state_prev : float) (dP : pynum),
      nth_error traj 1 = Some state_prev /\
      logistic_piecewise (NpFloat64 state_prev) (NpFloat64 2) Notebook.r
                         Notebook.K_high Notebook.K_low (PyFloat 2)
      = Ok dP /\
      nth_error traj 2 = Some (state_prev + value dP * (1 - 0))%float.
Proof.
  eexists. split; [vm_compute; reflexivity |].
  apply (step_adds_logistic_piecewise
           Notebook.P0 (np_grid [0; 1; 2]%float) Notebook.r
           Notebook.K_high Notebook.K_low (PyFloat 2) _ 2 (NpFloat64 2)).
  - vm_compute; reflexivity.
  - lia.
  - reflexivity.
Defined.



(** ** Runs that cannot differ *)

Lemma euler_states_no_shock (r K t_change t_change' dt : pynum)
      (grid : list pynum) :
  forall p : pynum,
    euler_states r K K t_change dt p grid =
    euler_states r K K t_change' dt p grid.
Proof.
  induction grid as [| ti rest IH]; intros p; [reflexivity |].
  cbn [euler_states].
  replace (if py_lt ti t_change then K else K) with K
    by now destruct (py_lt ti t_change).
  replace (if py_lt ti t_change' then K else K) with K
    by now destruct (py_lt ti t_change').
  destruct (py_truediv p K) as [q | e]; [| reflexivity]. cbn [bind].
  now rewrite IH.
Qed.

(** X15: without a shock the switch time is irrelevant: when [K_high] and
    [K_low] are the same number, the result is the same for every
    [t_change]. *)
Theorem t_change_unused_without_shock (P0 : pynum) (t : list pynum)
        (r K t_change t_change' : pynum) :
  integrate_piecewise P0 t r K K t_change =
  integrate_piecewise P0 t r K K t_change'.
Proof.
  rewrite !integrate_piecewise_unfold.
  destruct t as [| t0 [| t1 rest]]; try reflexivity.
  now rewrite (euler_states_no_shock r K t_change t_change' (py_sub t1 t0)
                 (t1 :: rest) P0).
Qed.

Section Carriers.
Variables (r K_high K_low t_change dt : pynum).
Variables (r' K_high' K_low' t_change' dt' : pynum).
Hypothesis Hr : value r = value r'.
Hypothesis Hhigh : value K_high = value K_high'.
Hypothesis Hlow : value K_low = value K_low'.
Hypothesis Hchange : value t_change = value t_change'.
Hypothesis Hdt : value dt = value dt'.

Lemma euler_states_same_values (grid : list pynum) :
  forall (grid' : list pynum) (p p' : pynum) (tl tl' : list pynum),
    map value grid = map value grid' ->
    value p = value p' ->
    euler_states r K_high K_low t_change dt p grid = Ok tl ->
    euler_states r' K_high' K_low' t_change' dt' p' grid' = Ok tl' ->
    map value tl = map value tl'.
Proof.
  induction grid as [| ti rest IH]; intros [| ti' rest'] p p' tl tl' Hgrid Hp;
    try discriminate; cbn [euler_states].
  - now intros [= <-] [= <-].
  - cbn [map] in Hgrid.
    assert (Hti : value ti = value ti').
    { exact (f_equal (fun l => match l with x :: _ => x | [] => value ti end)
                     Hgrid). }
    assert (Hrest : map value rest = map value rest').
    { exact (f_equal (@List.tl float) Hgrid). }
    destruct (py_truediv p _) as [q | e] eqn:Hq; [| discriminate].
    destruct (py_truediv p' _) as [q' | e] eqn:Hq'; [| discriminate].
    cbn [bind].
    destruct (euler_states _ _ _ _ _ _ rest) as [l |] eqn:Hrun;
      [| discriminate].
    destruct (euler_states _ _ _ _ _ _ rest') as [l' |] eqn:Hrun';
      [| discriminate].
    intros [= <-] [= <-].
    assert (Hnext :
              value (py_add p (py_mul (py_mul (py_mul r p)
                                        (py_sub py_one q)) dt)) =
              value (py_add p' (py_mul (py_mul (py_mul r' p')
                                         (py_sub py_one q')) dt'))).
    { rewrite (update_value r _ dt p q Hq).
      rewrite (update_value r' _ dt' p' q' Hq').
      unfold py_lt. rewrite Hti, Hchange, Hr, Hdt, Hp.
      now destruct (PrimFloat.ltb (value ti') (value t_change'));
        rewrite ?Hhigh, ?Hlow. }
    cbn [map]. rewrite Hnext. f_equal.
    exact (IH rest' _ _ l l' Hrest Hnext Hrun Hrun').
Qed.
End Carriers.



